(** * Verification of the route itinerary builder of MapViewer.tsx

    Shallow embedding of the routing logic of [src/components/MapViewer.tsx]:
    the maneuver formatter, the conversion of a routing response into a
    [RouteInfo], the React state touched by [calculateRoute], [clearRoute]
    and the point-clearing buttons, the [VoiceGuidance] class together with
    the asynchronous events of the platform speech synthesizer, and the
    distance/duration formatters.

    JavaScript numbers are modelled as rationals [Q]; the quotients the
    formatters compute are rounded to binary64 with [round_double]; JavaScript
    strings as [string]; an optional or possibly missing JSON field as
    [option]; truthiness of a string is non-emptiness. *)

From Stdlib Require Import String Ascii List ZArith QArith Qround Lia Lqa.
Import ListNotations.
Open Scope string_scope.

(** ** Data model *)

Inductive TravelMode := driving | cycling | walking.

(** [travelModes[mode].profile] *)
Definition profile (m : TravelMode) : string :=
  match m with
  | driving => "driving"
  | cycling => "cycling"
  | walking => "foot"
  end.

Record RoutePoint := mkRoutePoint {
  lngLat : Q * Q;
  point_name : option string
}.

Record Maneuver := mkManeuver {
  maneuver_type : string;
  maneuver_modifier : option string;
  maneuver_location : option (Q * Q)
}.

(** [interface NavigationStep] *)
Record NavigationStep := mkNavigationStep {
  instruction : string;
  step_distance : Q;
  step_duration : Q;
  maneuver : Maneuver;
  name : string
}.

(** [interface RouteInfo] *)
Record RouteInfo := mkRouteInfo {
  distance : Q;
  duration : Q;
  geometry : list (Q * Q);
  steps : list NavigationStep
}.

(** ** The raw OSRM response, as read through [any] *)

Record RawManeuver := mkRawManeuver {
  raw_type : option string;
  raw_modifier : option string;
  raw_location : option (Q * Q);
  raw_instruction : option string
}.

Record RawStep := mkRawStep {
  raw_maneuver : option RawManeuver;
  raw_distance : Q;
  raw_duration : Q;
  raw_name : option string
}.

Record RawLeg := mkRawLeg { raw_steps : option (list RawStep) }.

Record RawRoute := mkRawRoute {
  raw_route_distance : Q;
  raw_route_duration : Q;
  raw_geometry : list (Q * Q);
  raw_legs : option (list RawLeg)
}.

Record RawResponse := mkRawResponse {
  code : string;
  routes : option (list RawRoute)
}.

(** The outcome of [await fetch(url)] followed by [await response.json()]:
    either one of them rejects, or a JSON body is obtained. *)
Inductive FetchOutcome :=
| FetchRejected
| FetchBody (data : RawResponse).

(** ** JavaScript helpers *)

(** Truthiness of a string value that may be missing. *)
Definition truthy (o : option string) : bool :=
  match o with
  | Some s => negb (String.eqb s "")
  | None => false
  end.

(** [a || b] on a string value that may be missing. *)
Definition or_default (o : option string) (d : string) : string :=
  match o with
  | Some s => if String.eqb s "" then d else s
  | None => d
  end.

(** Optional chaining [x?.f]. *)
Definition opt_bind {A B} (o : option A) (f : A -> option B) : option B :=
  match o with Some a => f a | None => None end.

(** ** [formatManeuver] *)

Definition formatManeuver (type modifier name : option string) : string :=
  let roadName := if truthy name then " onto " ++ or_default name "" else "" in
  match type with
  | Some "depart" => "Start" ++ roadName
  | Some "arrive" => "You have arrived at your destination"
  | Some "turn" => "Turn " ++ or_default modifier "slightly" ++ roadName
  | Some "continue" | Some "new name" => "Continue" ++ roadName
  | Some "merge" => "Merge " ++ or_default modifier "" ++ roadName
  | Some "on ramp" => "Take the ramp " ++ or_default modifier "" ++ roadName
  | Some "off ramp" => "Take the exit" ++ roadName
  | Some "fork" => "Keep " ++ or_default modifier "straight" ++ roadName
  | Some "end of road" => "Turn " ++ or_default modifier "left" ++ roadName
  | Some "roundabout" | Some "rotary" => "Enter the roundabout" ++ roadName
  | _ => "Continue" ++ roadName
  end.

(** The [switch] cases of [formatManeuver]. *)
Definition known_types : list string :=
  ["depart"; "arrive"; "turn"; "continue"; "new name"; "merge"; "on ramp";
   "off ramp"; "fork"; "end of road"; "roundabout"; "rotary"].

(** ** Building the steps and the [RouteInfo] of a route *)

(** The object pushed by [leg.steps.forEach((step) => steps.push({...}))]. *)
Definition buildStep (step : RawStep) : NavigationStep :=
  let m := raw_maneuver step in
  {| instruction :=
       or_default (opt_bind m raw_instruction)
         (formatManeuver (opt_bind m raw_type) (opt_bind m raw_modifier)
            (raw_name step));
     step_distance := raw_distance step;
     step_duration := raw_duration step;
     maneuver :=
       {| maneuver_type := or_default (opt_bind m raw_type) "continue";
          maneuver_modifier := opt_bind m raw_modifier;
          maneuver_location := opt_bind m raw_location |};
     name := or_default (raw_name step) "Unnamed road" |}.

(** [if (leg.steps) { leg.steps.forEach(...) }] *)
Definition legSteps (leg : RawLeg) : list NavigationStep :=
  match raw_steps leg with
  | Some ss => map buildStep ss
  | None => []
  end.

(** [if (route.legs && route.legs.length > 0) { route.legs.forEach(...) }] *)
Definition routeSteps (route : RawRoute) : list NavigationStep :=
  match raw_legs route with
  | Some ((_ :: _) as legs) => flat_map legSteps legs
  | _ => []
  end.

(** [const routeData: RouteInfo = {...}] *)
Definition buildRouteInfo (route : RawRoute) : RouteInfo :=
  {| distance := raw_route_distance route;
     duration := raw_route_duration route;
     geometry := raw_geometry route;
     steps := routeSteps route |}.

(** The body of the [try] block: [Some info] when [setRouteInfo(routeData)]
    is reached, [None] when the [if] test fails or throws (reading
    [.length] of a missing [routes] throws a [TypeError], which the
    [catch] swallows). *)
Definition routeOfResponse (data : RawResponse) : option RouteInfo :=
  if String.eqb (code data) "Ok" then
    match routes data with
    | Some (route :: _) => Some (buildRouteInfo route)
    | _ => None
    end
  else None.

(** ** React state of [MapViewer] touched by routing *)

Inductive PointSlot := slot_start | slot_end.

Record UIState := mkUIState {
  mapReady : bool;                    (** [map.current !== null] *)
  isRoutingMode : bool;
  startPoint : option RoutePoint;
  endPoint : option RoutePoint;
  routeInfo : option RouteInfo;
  isCalculatingRoute : bool;
  travelMode : TravelMode;
  selectingPoint : option PointSlot;
  showSteps : bool;
  currentStepIndex : nat
}.

Definition set_startPoint (p : option RoutePoint) (s : UIState) : UIState :=
  {| mapReady := mapReady s; isRoutingMode := isRoutingMode s;
     startPoint := p; endPoint := endPoint s; routeInfo := routeInfo s;
     isCalculatingRoute := isCalculatingRoute s; travelMode := travelMode s;
     selectingPoint := selectingPoint s; showSteps := showSteps s;
     currentStepIndex := currentStepIndex s |}.

Definition set_endPoint (p : option RoutePoint) (s : UIState) : UIState :=
  {| mapReady := mapReady s; isRoutingMode := isRoutingMode s;
     startPoint := startPoint s; endPoint := p; routeInfo := routeInfo s;
     isCalculatingRoute := isCalculatingRoute s; travelMode := travelMode s;
     selectingPoint := selectingPoint s; showSteps := showSteps s;
     currentStepIndex := currentStepIndex s |}.

Definition set_routeInfo (r : option RouteInfo) (s : UIState) : UIState :=
  {| mapReady := mapReady s; isRoutingMode := isRoutingMode s;
     startPoint := startPoint s; endPoint := endPoint s; routeInfo := r;
     isCalculatingRoute := isCalculatingRoute s; travelMode := travelMode s;
     selectingPoint := selectingPoint s; showSteps := showSteps s;
     currentStepIndex := currentStepIndex s |}.

Definition set_isCalculatingRoute (b : bool) (s : UIState) : UIState :=
  {| mapReady := mapReady s; isRoutingMode := isRoutingMode s;
     startPoint := startPoint s; endPoint := endPoint s;
     routeInfo := routeInfo s; isCalculatingRoute := b;
     travelMode := travelMode s; selectingPoint := selectingPoint s;
     showSteps := showSteps s; currentStepIndex := currentStepIndex s |}.

Definition set_travelMode (m : TravelMode) (s : UIState) : UIState :=
  {| mapReady := mapReady s; isRoutingMode := isRoutingMode s;
     startPoint := startPoint s; endPoint := endPoint s;
     routeInfo := routeInfo s; isCalculatingRoute := isCalculatingRoute s;
     travelMode := m; selectingPoint := selectingPoint s;
     showSteps := showSteps s; currentStepIndex := currentStepIndex s |}.

Definition set_selectingPoint (p : option PointSlot) (s : UIState) : UIState :=
  {| mapReady := mapReady s; isRoutingMode := isRoutingMode s;
     startPoint := startPoint s; endPoint := endPoint s;
     routeInfo := routeInfo s; isCalculatingRoute := isCalculatingRoute s;
     travelMode := travelMode s; selectingPoint := p;
     showSteps := showSteps s; currentStepIndex := currentStepIndex s |}.

Definition set_showSteps (b : bool) (s : UIState) : UIState :=
  {| mapReady := mapReady s; isRoutingMode := isRoutingMode s;
     startPoint := startPoint s; endPoint := endPoint s;
     routeInfo := routeInfo s; isCalculatingRoute := isCalculatingRoute s;
     travelMode := travelMode s; selectingPoint := selectingPoint s;
     showSteps := b; currentStepIndex := currentStepIndex s |}.

Definition set_currentStepIndex (i : nat) (s : UIState) : UIState :=
  {| mapReady := mapReady s; isRoutingMode := isRoutingMode s;
     startPoint := startPoint s; endPoint := endPoint s;
     routeInfo := routeInfo s; isCalculatingRoute := isCalculatingRoute s;
     travelMode := travelMode s; selectingPoint := selectingPoint s;
     showSteps := showSteps s; currentStepIndex := i |}.

(** ** [calculateRoute]

    The synchronous prefix, up to the first [await]: [None] is the early
    [return] when a point or the map is missing. *)
Definition calculateRoute_begin (s : UIState) : option UIState :=
  match startPoint s, endPoint s, mapReady s with
  | Some _, Some _, true =>
      Some (set_routeInfo None (set_isCalculatingRoute true s))
  | _, _, _ => None
  end.

(** The continuation after the [await]s: the [try] body, then [finally].
    Drawing the route, fitting the camera and the spoken announcement act
    on the map and the synthesizer only, and come after [setRouteInfo]. *)
Definition calculateRoute_end (s : UIState) (o : FetchOutcome) : UIState :=
  let s' :=
    match o with
    | FetchRejected => s                         (** [catch]: console only *)
    | FetchBody data =>
        match routeOfResponse data with
        | Some info => set_routeInfo (Some info) s
        | None => s
        end
    end in
  set_isCalculatingRoute false s'.

(** One run of [calculateRoute] whose request completes with [o]. *)
Definition calculateRoute (s : UIState) (o : FetchOutcome) : UIState :=
  match calculateRoute_begin s with
  | Some s1 => calculateRoute_end s1 o
  | None => s
  end.

(** [clearRoute]; removing the map layers and markers and stopping the
    voice act outside the React state. *)
Definition clearRoute (s : UIState) : UIState :=
  set_currentStepIndex 0
    (set_showSteps false
       (set_selectingPoint (Some slot_start)
          (set_routeInfo None
             (set_endPoint None (set_startPoint None s))))).

(** [goToStep(index, step)]: the React part is [setCurrentStepIndex(index)]. *)
Definition goToStep (index : nat) (s : UIState) : UIState :=
  set_currentStepIndex index s.

(** ** User events and the route effect *)

Inductive UIEvent :=
| ClickMap (p : RoutePoint)        (** map click or city-marker click *)
| ClearStartButton                 (** the X button of point A *)
| ClearEndButton                   (** the X button of point B *)
| ClearRouteButton                 (** [onClick={clearRoute}] *)
| SelectTravelMode (m : TravelMode)
| SelectStep (index : nat).

Definition TravelMode_eqb (a b : TravelMode) : bool :=
  match a, b with
  | driving, driving | cycling, cycling | walking, walking => true
  | _, _ => false
  end.

Definition is_some {A} (o : option A) : bool :=
  match o with Some _ => true | None => false end.

(** The handler of an event: the new state, and whether a dependency of the
    effect [[startPoint, endPoint, travelMode]] changed ([Object.is]: a
    fresh point object always differs, [null] equals [null]). *)
Definition handle (s : UIState) (e : UIEvent) : UIState * bool :=
  match e with
  | ClickMap p =>
      if isRoutingMode s then
        match selectingPoint s with
        | Some slot_start =>
            (set_selectingPoint (Some slot_end) (set_startPoint (Some p) s), true)
        | Some slot_end =>
            (set_selectingPoint None (set_endPoint (Some p) s), true)
        | None => (s, false)
        end
      else (s, false)
  | ClearStartButton =>
      (set_selectingPoint (Some slot_start) (set_startPoint None s),
       is_some (startPoint s))
  | ClearEndButton =>
      (set_selectingPoint (Some slot_end) (set_endPoint None s),
       is_some (endPoint s))
  | ClearRouteButton =>
      (clearRoute s, is_some (startPoint s) || is_some (endPoint s))
  | SelectTravelMode m =>
      (set_travelMode m s, negb (TravelMode_eqb m (travelMode s)))
  | SelectStep i => (goToStep i s, false)
  end.

(** [useEffect(() => { if (startPoint && endPoint) calculateRoute(); },
    [startPoint, endPoint, travelMode])], the triggered request completing
    with [o] before the next event. *)
Definition react (s : UIState) (e : UIEvent) (o : FetchOutcome) : UIState :=
  let '(s', changed) := handle s e in
  if changed && is_some (startPoint s') && is_some (endPoint s')
  then calculateRoute s' o
  else s'.

(** ** [VoiceGuidance] and the platform speech synthesizer

    [window.speechSynthesis] keeps a queue of utterances whose head, once
    started, is being spoken.  Its events are delivered later, as tasks:
    [start] when the head begins, [end] when it finishes, and one [error]
    for every utterance removed by [cancel()].  All utterances share the
    handlers [onstart], [onend] and [onerror] of [speak], which write the
    [speaking] field of the same [VoiceGuidance] object. *)

Record Voice := mkVoice {
  enabled : bool;          (** [private enabled] *)
  speaking : bool;         (** [private speaking] *)
  synth_queue : list string;
  synth_started : bool;    (** the head of the queue is being spoken *)
  pending_errors : nat     (** [error] events of cancelled utterances *)
}.

(** [new VoiceGuidance()] *)
Definition voice_init : Voice :=
  {| enabled := true; speaking := false; synth_queue := [];
     synth_started := false; pending_errors := 0 |}.

(** [this.synth.cancel()] *)
Definition synth_cancel (v : Voice) : Voice :=
  {| enabled := enabled v; speaking := speaking v; synth_queue := [];
     synth_started := false;
     pending_errors := pending_errors v + length (synth_queue v) |}.

(** [this.synth.speak(utterance)] *)
Definition synth_speak (t : string) (v : Voice) : Voice :=
  {| enabled := enabled v; speaking := speaking v;
     synth_queue := synth_queue v ++ [t];
     synth_started := synth_started v; pending_errors := pending_errors v |}.

(** [speak(text)]; the voice and rate settings do not affect the state. *)
Definition speak (t : string) (v : Voice) : Voice :=
  if negb (enabled v) || speaking v then v
  else synth_speak t (synth_cancel v).

(** [toggle()] *)
Definition toggle (v : Voice) : Voice :=
  let v1 := {| enabled := negb (enabled v); speaking := speaking v;
               synth_queue := synth_queue v; synth_started := synth_started v;
               pending_errors := pending_errors v |} in
  if negb (enabled v1) then synth_cancel v1 else v1.

(** [stop()] *)
Definition stop (v : Voice) : Voice :=
  let v1 := synth_cancel v in
  {| enabled := enabled v1; speaking := false; synth_queue := synth_queue v1;
     synth_started := synth_started v1; pending_errors := pending_errors v1 |}.

(** The head of the queue starts; [utterance.onstart] runs. *)
Definition platform_start (v : Voice) : option Voice :=
  match synth_queue v, synth_started v with
  | _ :: _, false =>
      Some {| enabled := enabled v; speaking := true;
              synth_queue := synth_queue v; synth_started := true;
              pending_errors := pending_errors v |}
  | _, _ => None
  end.

(** The head of the queue finishes; [utterance.onend] runs. *)
Definition platform_end (v : Voice) : option Voice :=
  match synth_queue v, synth_started v with
  | _ :: rest, true =>
      Some {| enabled := enabled v; speaking := false; synth_queue := rest;
              synth_started := false; pending_errors := pending_errors v |}
  | _, _ => None
  end.

(** The [error] event of a cancelled utterance; [utterance.onerror] runs. *)
Definition platform_error (v : Voice) : option Voice :=
  match pending_errors v with
  | S k =>
      Some {| enabled := enabled v; speaking := false;
              synth_queue := synth_queue v; synth_started := synth_started v;
              pending_errors := k |}
  | O => None
  end.

(** Calls of the public methods, interleaved with platform events. *)
Inductive voice_step : Voice -> Voice -> Prop :=
| vs_speak v t : voice_step v (speak t v)
| vs_toggle v : voice_step v (toggle v)
| vs_stop v : voice_step v (stop v)
| vs_start v v' : platform_start v = Some v' -> voice_step v v'
| vs_end v v' : platform_end v = Some v' -> voice_step v v'
| vs_error v v' : platform_error v = Some v' -> voice_step v v'.

Inductive voice_reachable : Voice -> Prop :=
| vr_init : voice_reachable voice_init
| vr_step v v' : voice_reachable v -> voice_step v v' -> voice_reachable v'.

(** ** Number formatting

    [String(n)] of a non-negative integer: its decimal digits.  The fuel
    [N.to_nat n + 1] exceeds the number of digits. *)

Definition digit_char (n : N) : ascii := ascii_of_N (48 + n).

Fixpoint show_N_fuel (fuel : nat) (n : N) : string :=
  match fuel with
  | O => ""
  | S f =>
      if (n <? 10)%N then String (digit_char n) ""
      else show_N_fuel f (n / 10) ++ String (digit_char (n mod 10)) ""
  end.

Definition show_N (n : N) : string := show_N_fuel (S (N.to_nat n)) n.

(** [String(z)] of an integer-valued number [z] with [|z| < 2^53]: the
    integers the formatters print are in that range, where [String] gives
    all digits (above it, the shortest digits that read back as [z], and the
    exponent form from [10^21] on). *)
Definition show_Z (z : Z) : string :=
  if (z <? 0)%Z then "-" ++ show_N (Z.to_N (- z)) else show_N (Z.to_N z).

(** [Math.round(x)]: the nearest integer, halves rounded up. *)
Definition Math_round (x : Q) : Z := Qfloor (x + (1 # 2)).

(** [Math.floor(x)] *)
Definition Math_floor (x : Q) : Z := Qfloor x.

(** Truncation towards zero, and the [%] operator it defines. *)
Definition Q_trunc (x : Q) : Z :=
  if Qlt_le_dec x 0 then (- Qfloor (- x))%Z else Qfloor x.

Definition js_rem (x y : Q) : Q := x - y * inject_Z (Q_trunc (x / y)).

(** [x.toFixed(1)] (ECMAScript Number.prototype.toFixed, fractionDigits 1):
    [n] is the integer nearest to [10 * x], the larger one on a tie; its
    digits are padded to two and a point is put before the last one.  The
    exponential form the method returns from [x >= 10^21] on is outside
    this model. *)
Definition toFixed1 (x : Q) : string :=
  let neg := if Qlt_le_dec x 0 then true else false in
  let x' := if neg then - x else x in
  let n := Qfloor (10 * x' + (1 # 2)) in
  let m0 := show_N (Z.to_N n) in
  let m := if Nat.leb (String.length m0) 1 then "0" ++ m0 else m0 in
  let k := String.length m in
  (if neg then "-" else "") ++ substring 0 (k - 1) m ++ "." ++
  substring (k - 1) 1 m.

(** [2^e] as a rational. *)
Definition pow2 (e : Z) : Q :=
  if (0 <=? e)%Z then inject_Z (2 ^ e) else 1 # Z.to_pos (2 ^ (- e)).

(** The finite binary64 values: [m * 2^e], a significand below [2^53]. *)
Definition is_double (x : Q) : Prop :=
  exists m e : Z, (Z.abs m < 2 ^ 53)%Z /\ (-1074 <= e <= 971)%Z /\
    x == inject_Z m * pow2 e.

(** [2^k <= n / d], for [d > 0]. *)
Definition pow2_le (k n d : Z) : bool :=
  if (0 <=? k)%Z then (d * 2 ^ k <=? n)%Z else (d <=? n * 2 ^ (- k))%Z.

(** [floor (log2 (n / d))], for [n, d > 0]. *)
Definition flog2 (n d : Z) : Z :=
  let k := (Z.log2 n - Z.log2 d)%Z in
  if pow2_le k n d then k else (k - 1)%Z.

(** [a / b] rounded to the nearest integer, a tie to the even one ([b > 0]). *)
Definition rne (a b : Z) : Z :=
  let f := (a / b)%Z in
  let m := (a mod b)%Z in
  if (2 * m <? b)%Z then f
  else if (b <? 2 * m)%Z then (f + 1)%Z
  else if Z.even f then f else (f + 1)%Z.

(** The result of a binary64 operation whose exact value is [x]: rounded to
    nearest, ties to even, on a 53-bit significand, the exponent of its
    last bit at least -1074 (subnormals).  Overflow, from [2^1024] on, is not
    reached by the divisions this is applied to, whose quotient is below the
    dividend. *)
Definition round_double (x : Q) : Q :=
  let n := Qnum x in
  let d := Zpos (Qden x) in
  if (n =? 0)%Z then 0 else
  let a := Z.abs n in
  let e := Z.max (flog2 a d - 52) (-1074) in
  let v := if (e <=? 0)%Z then rne (a * 2 ^ (- e)) d # Z.to_pos (2 ^ (- e))
           else inject_Z (rne a (d * 2 ^ e) * 2 ^ e) in
  if (n <? 0)%Z then - v else v.

(** [formatDistance(meters)]: [meters / 1000] is a binary64 division. *)
Definition formatDistance (meters : Q) : string :=
  if Qle_bool 1000 meters then toFixed1 (round_double (meters / 1000)) ++ " km"
  else show_Z (Math_round meters) ++ " m".

(** [formatDuration(seconds)]: the two divisions are binary64 divisions;
    [%] is exact. *)
Definition formatDuration (seconds : Q) : string :=
  let hours := Math_floor (round_double (seconds / 3600)) in
  let minutes := Math_floor (round_double (js_rem seconds 3600 / 60)) in
  if (0 <? hours)%Z then show_Z hours ++ "h " ++ show_Z minutes ++ "m"
  else show_Z minutes ++ " min".

(** ** Routing state predicates and sample states *)

(** The raw steps of a leg, [leg.steps] or none. *)
Definition rawLegSteps (leg : RawLeg) : list RawStep :=
  match raw_steps leg with Some ss => ss | None => [] end.

Definition ready (s : UIState) : Prop :=
  startPoint s <> None /\ endPoint s <> None /\ mapReady s = true.

(** ** Concrete states *)

Definition pointA : RoutePoint := mkRoutePoint (730479 # 10000, 336844 # 10000) (Some "Islamabad").
Definition pointB : RoutePoint := mkRoutePoint (743587 # 10000, 315204 # 10000) (Some "Lahore").

Definition turnStep (road : string) : RawStep :=
  mkRawStep (Some (mkRawManeuver (Some "turn") (Some "left") None None)) 100 10 (Some road).

Definition routeDrive : RawRoute :=
  mkRawRoute 300 30 [] (Some [mkRawLeg (Some [turnStep "A"; turnStep "B"; turnStep "C"])]).

Definition routeCycle : RawRoute :=
  mkRawRoute 280 60 [] (Some [mkRawLeg (Some [turnStep "D"])]).

(** Both points set, the driving itinerary shown, the third step selected. *)
Definition s_nav : UIState :=
  {| mapReady := true; isRoutingMode := true; startPoint := Some pointA;
     endPoint := Some pointB; routeInfo := Some (buildRouteInfo routeDrive);
     isCalculatingRoute := false; travelMode := driving; selectingPoint := None;
     showSteps := true; currentStepIndex := 2 |}.

(** Both points set, no itinerary shown, nothing being calculated. *)
Definition s_idle : UIState :=
  {| mapReady := true; isRoutingMode := true; startPoint := Some pointA;
     endPoint := Some pointB; routeInfo := None;
     isCalculatingRoute := false; travelMode := driving; selectingPoint := None;
     showSteps := false; currentStepIndex := 0 |}.

(** The three failures named by the spec, and a missing [routes] field. *)
Inductive routing_failure : FetchOutcome -> Prop :=
| rf_network : routing_failure FetchRejected
| rf_status d : code d <> "Ok" -> routing_failure (FetchBody d)
| rf_no_routes c : routing_failure (FetchBody (mkRawResponse c None))
| rf_empty_routes c : routing_failure (FetchBody (mkRawResponse c (Some []))).

(** ** [getManeuverIcon] *)

(** The lucide icons the table returns. *)
Inductive ManeuverIcon :=
| ArrowUp | ArrowLeft | ArrowRight | CornerUpLeft | CornerUpRight
| RotateCw | CircleDot | Flag | ChevronRight.

(** [s.includes(sub)] *)
Definition includes (s sub : string) : bool :=
  match String.index 0 sub s with Some _ => true | None => false end.

(** [modifier?.includes(sub)], [undefined] being falsy. *)
Definition opt_includes (modifier : option string) (sub : string) : bool :=
  match modifier with Some m => includes m sub | None => false end.

(** The three lines repeated in the directional cases:
    [if (modifier?.includes("left")) return l;
     if (modifier?.includes("right")) return r; return ArrowUp;] *)
Definition side_icon (modifier : option string) (l r : ManeuverIcon) : ManeuverIcon :=
  if opt_includes modifier "left" then l
  else if opt_includes modifier "right" then r
  else ArrowUp.

Definition getManeuverIcon (type : string) (modifier : option string) : ManeuverIcon :=
  match type with
  | "turn" => side_icon modifier ArrowLeft ArrowRight
  | "new name" | "continue" => ArrowUp
  | "merge" | "on ramp" | "off ramp" => side_icon modifier CornerUpLeft CornerUpRight
  | "fork" => side_icon modifier CornerUpLeft CornerUpRight
  | "end of road" => side_icon modifier ArrowLeft ArrowRight
  | "roundabout" | "rotary" => RotateCw
  | "depart" => CircleDot
  | "arrive" => Flag
  | _ => ChevronRight
  end.

(** ** The route planner panel *)

Definition set_isRoutingMode (b : bool) (s : UIState) : UIState :=
  {| mapReady := mapReady s; isRoutingMode := b;
     startPoint := startPoint s; endPoint := endPoint s;
     routeInfo := routeInfo s; isCalculatingRoute := isCalculatingRoute s;
     travelMode := travelMode s; selectingPoint := selectingPoint s;
     showSteps := showSteps s; currentStepIndex := currentStepIndex s |}.

(** [toggleRoutingMode]; React applies the updates in order, so the final
    [setSelectingPoint(null)] overrides the ["start"] set by [clearRoute]. *)
Definition toggleRoutingMode (s : UIState) : UIState :=
  if isRoutingMode s then
    set_selectingPoint None (clearRoute (set_isRoutingMode false s))
  else set_selectingPoint (Some slot_start) (set_isRoutingMode true s).

Inductive PanelEvent :=
| ToggleRoutingModeButton          (** the Route button or the panel's X *)
| StartRowClick                    (** [onClick={() => !startPoint && setSelectingPoint("start")}] *)
| EndRowClick.                     (** [onClick={() => startPoint && !endPoint && setSelectingPoint("end")}] *)

(** The handler of a panel event, with the change flag of the route
    effect's dependencies, as in [handle]. *)
Definition handle_panel (s : UIState) (e : PanelEvent) : UIState * bool :=
  match e with
  | ToggleRoutingModeButton =>
      (toggleRoutingMode s,
       isRoutingMode s && (is_some (startPoint s) || is_some (endPoint s)))
  | StartRowClick =>
      (if is_some (startPoint s) then s
       else set_selectingPoint (Some slot_start) s, false)
  | EndRowClick =>
      (if is_some (startPoint s) && negb (is_some (endPoint s))
       then set_selectingPoint (Some slot_end) s else s, false)
  end.

Definition react_panel (s : UIState) (e : PanelEvent) (o : FetchOutcome) : UIState :=
  let '(s', changed) := handle_panel s e in
  if changed && is_some (startPoint s') && is_some (endPoint s')
  then calculateRoute s' o
  else s'.

(** What the "Route Info" part of the panel renders:
    [(isCalculatingRoute || routeInfo) && (isCalculatingRoute ? <spinner/> :
     routeInfo && <info/>)]. *)
Inductive RoutePanel :=
| PanelHidden
| PanelLoading
| PanelRoute (info : RouteInfo).

Definition routePanel (s : UIState) : RoutePanel :=
  if isCalculatingRoute s then PanelLoading
  else match routeInfo s with Some r => PanelRoute r | None => PanelHidden end.

(** ** The steps list *)

(** [isActive = index === currentStepIndex] for every rendered step. *)
Definition activeFlags (ss : list NavigationStep) (cursor : nat) : list bool :=
  map (fun i => Nat.eqb i cursor) (seq 0 (length ss)).

(** [step.name && step.name !== 'Unnamed road'] *)
Definition showsRoadName (st : NavigationStep) : bool :=
  truthy (Some (name st)) && negb (String.eqb (name st) "Unnamed road").

(** [speakStep(step)] *)
Definition speakStep (st : NavigationStep) (v : Voice) : Voice :=
  if enabled v
  then speak (instruction st ++ ". " ++ formatDistance (step_distance st)) v
  else v.

(** [goToStep(index, step)] on the React state and on the voice. *)
Definition goToStep_voice (index : nat) (st : NavigationStep) (s : UIState) (v : Voice)
  : UIState * Voice :=
  (goToStep index s, speakStep st v).

(** ** Further concrete states *)

(** The planner closed, the map loaded, no point placed. *)
Definition s_closed : UIState :=
  {| mapReady := true; isRoutingMode := false; startPoint := None;
     endPoint := None; routeInfo := None;
     isCalculatingRoute := false; travelMode := driving; selectingPoint := None;
     showSteps := false; currentStepIndex := 0 |}.

Definition respDrive : RawResponse := mkRawResponse "Ok" (Some [routeDrive]).
Definition respCycle : RawResponse := mkRawResponse "Ok" (Some [routeCycle]).

(** A voice speaking the one utterance it was asked to. *)
Definition v_playing : Voice :=
  {| enabled := true; speaking := true; synth_queue := ["Turn left"];
     synth_started := true; pending_errors := 0 |}.

(** * Properties *)

(** ** Evaluations on concrete inputs *)

(** Two legs of one step each: both steps are kept, in leg order. *)
Example routeSteps_two_legs :
  let st n := mkRawStep None 0 0 (Some n) in
  map name (routeSteps (mkRawRoute 0 0 []
              (Some [mkRawLeg (Some [st "A"]); mkRawLeg None;
                     mkRawLeg (Some [st "B"; st ""])]))) =
  ["A"; "B"; "Unnamed road"].
Proof. reflexivity. Qed.

Example formatDistance_950 : formatDistance 950 = "950 m".
Proof. vm_compute. reflexivity. Qed.
Example formatDistance_1500 : formatDistance 1500 = "1.5 km".
Proof. vm_compute. reflexivity. Qed.
Example formatDistance_999_6 : formatDistance (9996 # 10) = "1000 m".
Proof. vm_compute. reflexivity. Qed.
Example formatDuration_125 : formatDuration 125 = "2 min".
Proof. vm_compute. reflexivity. Qed.
Example formatDuration_4000 : formatDuration 4000 = "1h 6m".
Proof. vm_compute. reflexivity. Qed.
Example toFixed1_small : toFixed1 (4 # 100) = "0.0" /\ toFixed1 (5 # 100) = "0.1".
Proof. vm_compute. split; reflexivity. Qed.
(** ** Helper lemmas *)

Ltac destruct_string_cases :=
  repeat match goal with
  | |- context [match ?s with EmptyString => _ | String _ _ => _ end] =>
      destruct s
  | |- context [match ?a with Ascii _ _ _ _ _ _ _ _ => _ end] => destruct a
  | |- context [if ?b then _ else _] => is_var b; destruct b
  end.

Lemma or_default_nonempty (o : option string) (d : string) :
  d <> "" -> or_default o d <> "".
Proof.
  intros Hd. destruct o as [s|]; simpl; [|exact Hd].
  destruct (String.eqb_spec s "") as [_|Hs]; assumption.
Qed.

Lemma formatManeuver_nonempty_aux (ty md nm : option string) :
  exists c rest, formatManeuver ty md nm = String c rest.
Proof.
  unfold formatManeuver.
  generalize (if truthy nm then " onto " ++ or_default nm "" else "") as road.
  intros road.
  destruct ty as [t|]; [|simpl; eauto].
  destruct_string_cases; simpl; eauto.
Qed.

Lemma formatManeuver_nonempty (ty md nm : option string) :
  formatManeuver ty md nm <> "".
Proof.
  destruct (formatManeuver_nonempty_aux ty md nm) as (c & rest & ->).
  discriminate.
Qed.

(** ** C3 *)

(** C3: [formatManeuver] is a total function: every (type, modifier, road
    name), also a missing or unrecognized type, gives a non-empty
    instruction, and a type outside the [switch] cases gives "Continue",
    followed by " onto <road>" when the road name is non-empty. *)
Theorem formatManeuver_total_continue :
  forall ty md nm,
    formatManeuver ty md nm <> "" /\
    ((match ty with Some t => ~ In t known_types | None => True end) ->
     formatManeuver ty md nm =
       "Continue" ++ match nm with
                     | Some n => if String.eqb n "" then "" else " onto " ++ n
                     | None => ""
                     end).
Proof.
  intros ty md nm. split.
  - apply formatManeuver_nonempty.
  - assert (Hroad : (if truthy nm then " onto " ++ or_default nm "" else "") =
                    match nm with
                    | Some n => if String.eqb n "" then "" else " onto " ++ n
                    | None => ""
                    end).
    { destruct nm as [n|]; simpl; [|reflexivity].
      destruct (String.eqb n ""); reflexivity. }
    unfold formatManeuver. rewrite Hroad.
    generalize (match nm with
                | Some n => if String.eqb n "" then "" else " onto " ++ n
                | None => ""
                end) as road.
    intros road Hunk.
    destruct ty as [t|]; [|reflexivity].
    destruct_string_cases; try reflexivity;
      exfalso; apply Hunk; simpl; tauto.
Qed.

(** ** C10 *)

(** C10: a built step replaces a missing or empty road name by
    "Unnamed road", a missing (or empty) maneuver type by "continue", and a
    missing (or empty) service instruction by [formatManeuver] of the raw
    type, modifier and road name; its instruction, name and maneuver type
    are never empty. *)
Theorem buildStep_defaults :
  forall step : RawStep,
    let m := raw_maneuver step in
    let b := buildStep step in
    ((raw_name step = None \/ raw_name step = Some "") ->
       name b = "Unnamed road") /\
    ((opt_bind m raw_type = None \/ opt_bind m raw_type = Some "") ->
       maneuver_type (maneuver b) = "continue") /\
    ((opt_bind m raw_instruction = None \/
      opt_bind m raw_instruction = Some "") ->
       instruction b =
         formatManeuver (opt_bind m raw_type) (opt_bind m raw_modifier)
           (raw_name step)) /\
    instruction b <> "" /\ name b <> "" /\ maneuver_type (maneuver b) <> "".
Proof.
  intros step m b. subst m b. unfold buildStep; simpl.
  split; [|split; [|split; [|split; [|split]]]].
  - intros [-> | ->]; reflexivity.
  - intros [-> | ->]; reflexivity.
  - intros [-> | ->]; reflexivity.
  - apply or_default_nonempty, formatManeuver_nonempty.
  - apply or_default_nonempty; discriminate.
  - apply or_default_nonempty; discriminate.
Qed.

(** ** C1 and C2: the itinerary of a successful response *)

Lemma calculateRoute_body (s : UIState) (data : RawResponse) :
  ready s ->
  calculateRoute s (FetchBody data) =
  set_isCalculatingRoute false
    (set_routeInfo (routeOfResponse data)
       (set_routeInfo None (set_isCalculatingRoute true s))).
Proof.
  intros (Hs & He & Hm). unfold calculateRoute, calculateRoute_begin.
  destruct (startPoint s); [|congruence].
  destruct (endPoint s); [|congruence].
  rewrite Hm. unfold calculateRoute_end.
  destruct (routeOfResponse data); reflexivity.
Qed.

Lemma flat_map_map_concat {A B} (f : A -> B) (g : RawLeg -> list A) ls :
  flat_map (fun l => map f (g l)) ls = map f (concat (map g ls)).
Proof.
  induction ls as [|l ls IH]; simpl; [reflexivity|].
  rewrite map_app, IH. reflexivity.
Qed.

(** C1: after [calculateRoute] receives an "Ok" response with candidates
    [route :: rest], the itinerary's distance and duration are the
    top-level [route.distance] and [route.duration], and the other
    candidates [rest] have no influence on the resulting state. *)
Theorem calculateRoute_first_candidate_totals :
  forall s code_ok route rest,
    ready s -> code_ok = "Ok" ->
    exists info,
      routeInfo (calculateRoute s (FetchBody (mkRawResponse code_ok
                                                (Some (route :: rest))))) =
        Some info /\
      distance info = raw_route_distance route /\
      duration info = raw_route_duration route /\
      forall rest',
        calculateRoute s (FetchBody (mkRawResponse code_ok (Some (route :: rest')))) =
        calculateRoute s (FetchBody (mkRawResponse code_ok (Some (route :: rest)))).
Proof.
  intros s code_ok route rest Hr ->.
  exists (buildRouteInfo route).
  rewrite calculateRoute_body by exact Hr.
  split; [reflexivity|]. split; [reflexivity|]. split; [reflexivity|].
  intros rest'. rewrite !calculateRoute_body by exact Hr. reflexivity.
Qed.

(** C2: the steps of the itinerary are the images, under [buildStep], of
    the raw steps of every leg concatenated in leg order and, inside a
    leg, in the order of the response; in particular the itinerary has a
    step whenever some leg has one. *)
Theorem calculateRoute_steps_in_order :
  forall s code_ok route rest,
    ready s -> code_ok = "Ok" ->
    exists info,
      routeInfo (calculateRoute s (FetchBody (mkRawResponse code_ok
                                                (Some (route :: rest))))) =
        Some info /\
      steps info =
        map buildStep
          (concat (map rawLegSteps
                     (match raw_legs route with Some ls => ls | None => [] end))) /\
      ((exists ls leg st ss,
           raw_legs route = Some ls /\ In leg ls /\ raw_steps leg = Some (st :: ss)) ->
       steps info <> []).
Proof.
  intros s code_ok route rest Hr ->.
  exists (buildRouteInfo route).
  rewrite calculateRoute_body by exact Hr.
  assert (Hsteps : steps (buildRouteInfo route) =
            map buildStep
              (concat (map rawLegSteps
                         (match raw_legs route with Some ls => ls | None => [] end)))).
  { simpl. unfold routeSteps.
    assert (Hext : forall leg, legSteps leg = map buildStep (rawLegSteps leg)).
    { intros leg. unfold legSteps, rawLegSteps. destruct (raw_steps leg); reflexivity. }
    destruct (raw_legs route) as [[|l ls]|]; try reflexivity.
    exact (eq_trans (flat_map_ext _ _ Hext (l :: ls))
             (flat_map_map_concat buildStep rawLegSteps (l :: ls))). }
  split; [reflexivity|]. split; [exact Hsteps|].
  intros (ls & leg & st & ss & Hls & Hin & Hleg).
  rewrite Hsteps, Hls. intros Hnil.
  apply map_eq_nil in Hnil.
  assert (Hst : In st (concat (map rawLegSteps ls))).
  { apply in_concat. exists (rawLegSteps leg). split.
    - apply in_map. exact Hin.
    - unfold rawLegSteps. rewrite Hleg. left. reflexivity. }
  rewrite Hnil in Hst. destruct Hst.
Qed.

(** ** C4 *)

(** C4: the X button of point A (or B) clears only that point: the
    itinerary of [s_nav] stays in [routeInfo] and the cursor stays 2,
    whatever a request would return, while [clearRoute] removes the
    itinerary and resets the cursor. *)
Theorem clear_point_keeps_itinerary :
  forall o : FetchOutcome,
    startPoint (react s_nav ClearStartButton o) = None /\
    routeInfo (react s_nav ClearStartButton o) = Some (buildRouteInfo routeDrive) /\
    currentStepIndex (react s_nav ClearStartButton o) = 2%nat /\
    endPoint (react s_nav ClearEndButton o) = None /\
    routeInfo (react s_nav ClearEndButton o) = Some (buildRouteInfo routeDrive) /\
    currentStepIndex (react s_nav ClearEndButton o) = 2%nat /\
    routeInfo (react s_nav ClearRouteButton o) = None /\
    currentStepIndex (react s_nav ClearRouteButton o) = 0%nat.
Proof. intros o. repeat split. Qed.

(** ** C5 *)

(** C5: switching [s_nav] to cycling recalculates the route and shows the
    new one-step itinerary, but the cursor keeps the old value 2. *)
Theorem recalculation_keeps_cursor :
  let s' := react s_nav (SelectTravelMode cycling)
              (FetchBody (mkRawResponse "Ok" (Some [routeCycle]))) in
  routeInfo s' = Some (buildRouteInfo routeCycle) /\
  length (steps (buildRouteInfo routeCycle)) = 1%nat /\
  currentStepIndex s' = 2%nat.
Proof. repeat split. Qed.

(** ** C6 *)

Lemma calculateRoute_failure (s : UIState) (o : FetchOutcome) :
  ready s -> routing_failure o ->
  calculateRoute s o =
  set_isCalculatingRoute false (set_routeInfo None (set_isCalculatingRoute true s)).
Proof.
  intros Hr Hf. destruct Hf as [|d Hd|c|c].
  - destruct Hr as (Hs & He & Hm). unfold calculateRoute, calculateRoute_begin.
    destruct (startPoint s); [|congruence]. destruct (endPoint s); [|congruence].
    rewrite Hm. reflexivity.
  - rewrite calculateRoute_body by exact Hr. unfold routeOfResponse.
    destruct (String.eqb_spec (code d) "Ok"); [contradiction|reflexivity].
  - rewrite calculateRoute_body by exact Hr. unfold routeOfResponse.
    simpl. destruct (String.eqb c "Ok"); reflexivity.
  - rewrite calculateRoute_body by exact Hr. unfold routeOfResponse.
    simpl. destruct (String.eqb c "Ok"); reflexivity.
Qed.

(** C6 (counterexample): after a network failure the state is exactly the
    state before the request: no failure is reported to the UI. *)
Lemma network_failure_unreported :
  calculateRoute s_idle FetchRejected = s_idle.
Proof. reflexivity. Qed.

(** C6: a network failure, a non-"Ok" status, a missing or an empty list
    of candidates all leave [calculateRoute] in one and the same state,
    with no itinerary and the calculating flag off; whatever the outcome,
    the itinerary afterwards is either absent or the complete one built
    from the first candidate; and when no itinerary was shown before and
    no other calculation was in progress, a failed calculation leaves the
    state exactly as it was. *)
Theorem calculateRoute_failures_clear :
  forall s o1 o2,
    ready s -> routing_failure o1 -> routing_failure o2 ->
    calculateRoute s o1 = calculateRoute s o2 /\
    routeInfo (calculateRoute s o1) = None /\
    isCalculatingRoute (calculateRoute s o1) = false /\
    (forall o, routeInfo (calculateRoute s o) = None \/
       exists d route rest, o = FetchBody d /\ code d = "Ok" /\
         routes d = Some (route :: rest) /\
         routeInfo (calculateRoute s o) = Some (buildRouteInfo route)) /\
    (routeInfo s = None -> isCalculatingRoute s = false ->
     calculateRoute s o1 = s).
Proof.
  intros s o1 o2 Hr H1 H2.
  rewrite (calculateRoute_failure s o1 Hr H1), (calculateRoute_failure s o2 Hr H2).
  split; [reflexivity|]. split; [reflexivity|]. split; [reflexivity|]. split.
  - intros o. destruct o as [|d].
    + left. rewrite (calculateRoute_failure s _ Hr rf_network). reflexivity.
    + rewrite calculateRoute_body by exact Hr. simpl.
      unfold routeOfResponse.
      destruct (String.eqb_spec (code d) "Ok") as [Hok|]; [|left; reflexivity].
      destruct (routes d) as [[|route rest]|] eqn:Hrt; [left; reflexivity| |left; reflexivity].
      right. exists d, route, rest. repeat split; assumption.
  - intros Hri Hc. destruct s; simpl in *; subst; reflexivity.
Qed.

(** ** C7 *)

Lemma voice_step_queue_le1 (v v' : Voice) :
  (length (synth_queue v) <= 1)%nat -> voice_step v v' -> (length (synth_queue v') <= 1)%nat.
Proof.
  intros Hle Hst. destruct Hst as [v t|v|v|v v' Hs|v v' Hs|v v' Hs].
  - unfold speak. destruct (negb (enabled v) || speaking v); simpl; [exact Hle|lia].
  - unfold toggle. destruct (enabled v); simpl; [lia|exact Hle].
  - simpl. lia.
  - unfold platform_start in Hs.
    destruct (synth_queue v) eqn:Hq; [discriminate|].
    destruct (synth_started v); [discriminate|].
    injection Hs as <-. simpl in *. exact Hle.
  - unfold platform_end in Hs.
    destruct (synth_queue v) as [|u rest] eqn:Hq; [discriminate|].
    destruct (synth_started v); [|discriminate].
    injection Hs as <-. simpl in *. lia.
  - unfold platform_error in Hs.
    destruct (pending_errors v); [discriminate|].
    injection Hs as <-. exact Hle.
Qed.

Lemma voice_reachable_queue_le1 (v : Voice) :
  voice_reachable v -> (length (synth_queue v) <= 1)%nat.
Proof.
  induction 1 as [|v v' _ IH Hst].
  - simpl. lia.
  - exact (voice_step_queue_le1 v v' IH Hst).
Qed.

(** C7 (counterexample): a request for "b" arriving after "a" was handed
    to the synthesizer, before "a" has started, is not dropped: [speak]
    cancels "a" and the synthesizer then holds "b". *)
Lemma speak_in_flight_replaced :
  let v1 := speak "a" voice_init in
  voice_reachable v1 /\ synth_queue v1 = ["a"] /\
  speak "b" v1 <> v1 /\ synth_queue (speak "b" v1) = ["b"].
Proof.
  simpl. split; [|split; [reflexivity|split; [discriminate|reflexivity]]].
  apply (vr_step voice_init); [constructor|constructor].
Qed.

(** C7: [speak] reads the enabled flag at each call and then drops the
    request, changing nothing, when narration is disabled or an utterance
    has started and not yet ended ([speaking]); otherwise it cancels what
    the synthesizer holds and hands it the new utterance alone.  Toggling
    narration off empties the synthesizer.  In every reachable state the
    synthesizer holds at most one utterance. *)
Theorem voice_guidance_gating :
  forall v t,
    (enabled v = false -> speak t v = v) /\
    (speaking v = true -> speak t v = v) /\
    (enabled v = true -> speaking v = false -> synth_queue (speak t v) = [t]) /\
    (enabled v = true ->
       enabled (toggle v) = false /\ synth_queue (toggle v) = [] /\
       synth_started (toggle v) = false) /\
    (voice_reachable v -> (length (synth_queue v) <= 1)%nat).
Proof.
  intros v t. split; [|split; [|split; [|split]]].
  - intros H. unfold speak. rewrite H. reflexivity.
  - intros H. unfold speak. rewrite H, orb_true_r. reflexivity.
  - intros He Hs. unfold speak. rewrite He, Hs. reflexivity.
  - intros He. unfold toggle. rewrite He. simpl. repeat split.
  - apply voice_reachable_queue_le1.
Qed.

(** ** Decimal digits and substrings *)

Lemma show_N_fuel_stable (f g : nat) (n : N) :
  (N.to_nat n < f)%nat -> (N.to_nat n < g)%nat -> show_N_fuel f n = show_N_fuel g n.
Proof.
  revert g n. induction f as [|f IH]; intros g n Hf Hg; [lia|].
  destruct g as [|g]; [lia|]. simpl.
  destruct (n <? 10)%N eqn:Hlt; [reflexivity|].
  apply N.ltb_ge in Hlt. f_equal. apply IH.
  - assert (N.to_nat (n / 10) < N.to_nat n)%nat; [|lia].
    assert (n / 10 < n)%N by (apply N.div_lt; lia). lia.
  - assert (N.to_nat (n / 10) < N.to_nat n)%nat; [|lia].
    assert (n / 10 < n)%N by (apply N.div_lt; lia). lia.
Qed.

Lemma show_N_step (n : N) :
  (10 <= n)%N ->
  show_N n = show_N (n / 10) ++ String (digit_char (n mod 10)) "".
Proof.
  intros H. unfold show_N at 1. simpl.
  replace (n <? 10)%N with false by (symmetry; apply N.ltb_ge; lia).
  f_equal. unfold show_N. apply show_N_fuel_stable.
  - assert (N.to_nat (n / 10) < N.to_nat n)%nat; [|lia].
    assert (n / 10 < n)%N by (apply N.div_lt; lia). lia.
  - lia.
Qed.

Lemma show_N_nonempty (n : N) : show_N n <> "".
Proof.
  unfold show_N. simpl. destruct (n <? 10)%N; [discriminate|].
  destruct (show_N_fuel (N.to_nat n) (n / 10)); discriminate.
Qed.

Lemma substring_prefix (a b : string) : substring 0 (String.length a) (a ++ b) = a.
Proof.
  induction a as [|c a IH]; simpl; [destruct b; reflexivity|]. rewrite IH. reflexivity.
Qed.

Lemma substring_last (a : string) (c : ascii) :
  substring (String.length a) 1 (a ++ String c "") = String c "".
Proof. induction a as [|c' a IH]; simpl; [reflexivity|exact IH]. Qed.

Lemma length_append_char (a : string) (c : ascii) :
  String.length (a ++ String c "") = S (String.length a).
Proof. induction a as [|c' a IH]; simpl; [reflexivity|rewrite IH; reflexivity]. Qed.

(** ** Floors *)

Lemma Qfloor_bounds (x : Q) : inject_Z (Qfloor x) <= x /\ x < inject_Z (Qfloor x) + 1.
Proof.
  split; [apply Qfloor_le|].
  pose proof (Qlt_floor x) as H. rewrite inject_Z_plus in H. exact H.
Qed.

Lemma Qfloor_ge (x : Q) (z : Z) : inject_Z z <= x -> (z <= Qfloor x)%Z.
Proof.
  intros H. rewrite <- (Qfloor_Z z). apply Qfloor_resp_le. exact H.
Qed.

Lemma Qfloor_lt (x : Q) (z : Z) : x < inject_Z z -> (Qfloor x < z)%Z.
Proof.
  intros H. rewrite Zlt_Qlt. apply Qle_lt_trans with x; [apply Qfloor_le|exact H].
Qed.

Lemma string_app_assoc (a b c : string) : (a ++ b) ++ c = a ++ (b ++ c).
Proof. induction a as [|x a IH]; simpl; [reflexivity|rewrite IH; reflexivity]. Qed.

Lemma show_Z_nonneg (z : Z) : (0 <= z)%Z -> show_Z z = show_N (Z.to_N z).
Proof.
  intros H. unfold show_Z. replace (z <? 0)%Z with false by (symmetry; apply Z.ltb_ge; lia).
  reflexivity.
Qed.

(** ** Binary64 rounding *)

Lemma flog2_lower (n d : Z) :
  (0 < n)%Z -> (0 < d)%Z -> pow2_le (flog2 n d) n d = true.
Proof.
  intros Hn Hd. unfold flog2.
  set (k := (Z.log2 n - Z.log2 d)%Z).
  destruct (pow2_le k n d) eqn:E; [exact E|].
  pose proof (Z.log2_spec n Hn) as [Hn1 Hn2].
  pose proof (Z.log2_spec d Hd) as [Hd1 Hd2].
  pose proof (Z.log2_nonneg n). pose proof (Z.log2_nonneg d).
  unfold pow2_le. destruct (Z.leb_spec 0 (k - 1)) as [Hk|Hk].
  - apply Z.leb_le.
    assert (Hp : (2 ^ Z.log2 n = 2 ^ (Z.log2 d + 1) * 2 ^ (k - 1))%Z).
    { rewrite <- Z.pow_add_r by lia. f_equal. unfold k. lia. }
    assert (0 < 2 ^ (k - 1))%Z by (apply Z.pow_pos_nonneg; lia).
    nia.
  - apply Z.leb_le.
    assert (Hp : (2 ^ (Z.log2 d + 1) = 2 ^ Z.log2 n * 2 ^ (- (k - 1)))%Z).
    { rewrite <- Z.pow_add_r by lia. f_equal. unfold k. lia. }
    assert (0 < 2 ^ (- (k - 1)))%Z by (apply Z.pow_pos_nonneg; lia).
    nia.
Qed.

Lemma rne_spec (a b : Z) : (0 < b)%Z ->
  (rne a b = a / b /\ 2 * (a mod b) <= b)%Z \/
  (rne a b = a / b + 1 /\ b <= 2 * (a mod b))%Z.
Proof.
  intros Hb. unfold rne.
  destruct (Z.ltb_spec (2 * (a mod b)) b); [left; split; [reflexivity|lia]|].
  destruct (Z.ltb_spec b (2 * (a mod b))); [right; split; [reflexivity|lia]|].
  destruct (Z.even (a / b)); [left|right]; split; (reflexivity || lia).
Qed.

(** A positive [x] below [2^53] is rounded at a grain [1 / P]; from [1/2]
    on, [x * P] has 53 bits. *)
Lemma round_double_pos (x : Q) :
  0 < x -> x < inject_Z (2 ^ 53) ->
  exists P : Z, (1 <= P)%Z /\
    round_double x = rne (Qnum x * P) (Zpos (Qden x)) # Z.to_pos P /\
    (1 # 2 <= x -> (2 ^ 52 * Zpos (Qden x) <= Qnum x * P)%Z).
Proof.
  destruct x as [n d]. intros Hn Hlt. unfold Qlt in Hn, Hlt.
  cbn [Qnum Qden inject_Z] in Hn, Hlt. cbn [Qnum Qden].
  assert (Hn' : (0 < n)%Z) by lia.
  set (F := flog2 n (Zpos d)).
  pose proof (flog2_lower n (Zpos d) Hn' eq_refl) as HF. fold F in HF.
  unfold pow2_le in HF.
  assert (HF52 : (F <= 52)%Z).
  { destruct (Z.leb_spec 0 F); [|lia]. apply Z.leb_le in HF.
    destruct (Z.le_gt_cases F 52) as [|Hgt]; [assumption|].
    assert (2 ^ 53 <= 2 ^ F)%Z by (apply Z.pow_le_mono_r; lia). nia. }
  set (e := Z.max (F - 52) (-1074)).
  assert (He : (e <= 0)%Z) by (unfold e; lia).
  exists (2 ^ (- e))%Z. split.
  { assert (0 < 2 ^ (- e))%Z by (apply Z.pow_pos_nonneg; lia). lia. }
  split.
  - unfold round_double. simpl.
    replace (n =? 0)%Z with false by (symmetry; apply Z.eqb_neq; lia).
    rewrite Z.abs_eq by lia. fold F. fold e.
    replace (e <=? 0)%Z with true by (symmetry; apply Z.leb_le; lia).
    replace (n <? 0)%Z with false by (symmetry; apply Z.ltb_ge; lia).
    reflexivity.
  - intros Hh. unfold Qle in Hh. cbn [Qnum Qden] in Hh.
    destruct (Z.max_spec (F - 52) (-1074)) as [[Hm Hme]|[Hm Hme]]; fold e in Hme.
    + rewrite Hme. replace (- -1074)%Z with (52 + 1022)%Z by lia.
      rewrite Z.pow_add_r by lia.
      assert (0 < 2 ^ 52)%Z by (apply Z.pow_pos_nonneg; lia).
      assert (2 <= 2 ^ 1022)%Z.
      { replace 1022%Z with (1 + 1021)%Z by lia. rewrite Z.pow_add_r by lia.
        assert (0 < 2 ^ 1021)%Z by (apply Z.pow_pos_nonneg; lia). lia. }
      nia.
    + rewrite Hme. destruct (Z.leb_spec 0 F) as [H0|H0].
      * apply Z.leb_le in HF.
        assert (Hp : (2 ^ 52 = 2 ^ F * 2 ^ (- (F - 52)))%Z).
        { rewrite <- Z.pow_add_r by lia. f_equal. lia. }
        assert (0 < 2 ^ (- (F - 52)))%Z by (apply Z.pow_pos_nonneg; lia).
        nia.
      * apply Z.leb_le in HF.
        assert (Hp : (2 ^ (- (F - 52)) = 2 ^ (- F) * 2 ^ 52)%Z).
        { rewrite <- Z.pow_add_r by lia. f_equal. lia. }
        assert (0 < 2 ^ 52)%Z by (apply Z.pow_pos_nonneg; lia).
        nia.
Qed.

Lemma Qnum_pos_of_pos (q : Q) : 0 < q -> (0 < Qnum q)%Z.
Proof. destruct q as [n d]. unfold Qlt. simpl. lia. Qed.

(** [x / c] for [x == M / T]: its numerator and denominator. *)
Lemma div_repr (x : Q) (M T c : Z) :
  (0 < T)%Z -> (0 < c)%Z -> x == M # Z.to_pos T ->
  (Qnum (x / inject_Z c) * (T * c) = M * Zpos (Qden (x / inject_Z c)))%Z.
Proof.
  intros HT Hc Hx.
  destruct x as [n d]. unfold Qeq in Hx. simpl in Hx.
  rewrite Z2Pos.id in Hx by lia.
  destruct c as [|p|p]; try lia.
  unfold Qdiv, Qmult, Qinv. simpl. nia.
Qed.

(** Dividing a double below [2^53] by a positive integer and rounding the
    quotient to a double does not change its integer part. *)
Lemma floor_round_double_div (x : Q) (M T c : Z) :
  (0 <= M < 2 ^ 53)%Z -> (0 < T)%Z -> (0 < c)%Z -> x == M # Z.to_pos T ->
  Qfloor (round_double (x / inject_Z c)) = Qfloor (x / inject_Z c).
Proof.
  intros HM HT Hc Hx.
  pose proof (div_repr x M T c HT Hc Hx) as Hnd.
  set (q := x / inject_Z c) in *.
  destruct (Z.eq_dec M 0) as [HM0|HM0].
  { subst M. destruct q as [n d]. simpl in Hnd.
    assert (n = 0)%Z by nia. subst n. reflexivity. }
  assert (Hq : 0 < q).
  { destruct q as [n d]. unfold Qlt. cbn [Qnum Qden] in *.
    assert (0 < M * Zpos d)%Z by (apply Z.mul_pos_pos; lia).
    destruct (Z.le_gt_cases n 0); [|lia].
    assert (n * (T * 1000) <= 0)%Z by (apply Z.mul_nonpos_nonneg; lia). lia. }
  assert (Hq53 : q < inject_Z (2 ^ 53)).
  { destruct q as [n d]. unfold Qlt. cbn [Qnum Qden inject_Z] in *.
    assert (HTc1 : (1 <= T * c)%Z) by nia.
    assert (H1 : (n * (T * c) < 2 ^ 53 * Zpos d * (T * c))%Z).
    { rewrite Hnd. assert (0 < Zpos d)%Z by lia. nia. }
    apply Z.mul_lt_mono_pos_r in H1; lia. }
  destruct (round_double_pos q Hq Hq53) as (P & HP & Hr & Hb).
  rewrite Hr.
  pose proof (Qnum_pos_of_pos q Hq) as Hn.
  destruct q as [n d]. cbn [Qnum Qden] in *.
  unfold Qfloor. rewrite Z2Pos.id by lia.
  set (D := Zpos d) in *. assert (HD : (0 < D)%Z) by (unfold D; lia).
  assert (Hfl : (n / D = (n * P / D) / P)%Z).
  { rewrite Z.div_div by lia. rewrite Z.div_mul_cancel_r by lia. reflexivity. }
  rewrite Hfl.
  pose proof (Z.div_mod (n * P) D ltac:(lia)) as Hdm.
  pose proof (Z.mod_pos_bound (n * P) D HD) as Hmb.
  set (f := (n * P / D)%Z) in *. set (m := ((n * P) mod D)%Z) in *.
  assert (Hf0 : (0 <= f)%Z) by (apply Z.div_pos; nia).
  destruct (rne_spec (n * P) D HD) as [[-> _]|[-> Hm2]]; [reflexivity|].
  fold f m in Hm2.
  pose proof (Z.div_mod f P ltac:(lia)) as Hfp.
  pose proof (Z.mod_pos_bound f P ltac:(lia)) as Hfpb.
  destruct (Z.eq_dec (f mod P) (P - 1)) as [Hlast|Hlast].
  2:{ symmetry. apply Z.div_unique with (f mod P + 1)%Z; lia. }
  exfalso.
  set (J := (f / P + 1)%Z) in *.
  assert (HJ : (f + 1 = J * P)%Z) by (unfold J; lia).
  assert (HJ1 : (1 <= J)%Z) by (unfold J; pose proof (Z.div_pos f P Hf0 ltac:(lia)); lia).
  (* the quotient is below J, by at least 1 / (T c) *)
  assert (HnJ : (n < J * D)%Z) by nia.
  assert (HMJ : (M < J * T * c)%Z) by nia.
  assert (Hgap : (D <= (J * D - n) * (T * c))%Z) by nia.
  (* rounding up to J P needs the quotient within 1 / (2P) of J *)
  assert (Hup : (2 * P * (J * D - n) <= D)%Z) by nia.
  assert (HTc : (2 * P <= T * c)%Z).
  { assert (H1 : (2 * P * D <= 2 * P * ((J * D - n) * (T * c)))%Z) by nia.
    assert (H2 : (2 * P * ((J * D - n) * (T * c)) <= D * (T * c))%Z) by nia.
    nia. }
  (* the quotient is at least 1/2, so it has 53 bits at grain 1 / P *)
  assert (Hhalf : 1 # 2 <= n # d).
  { unfold Qle. cbn [Qnum Qden]. fold D.
    destruct (Z.le_gt_cases D (n * 2)) as [|Hlt]; [lia|].
    exfalso. assert (f + 1 < P)%Z by nia. nia. }
  specialize (Hb Hhalf).
  assert (H3 : (2 ^ 52 * D * (T * c) <= M * D * P)%Z) by nia.
  assert (H4 : (M * D * P < 2 ^ 53 * D * P)%Z) by nia.
  assert (H5 : (2 ^ 53 = 2 * 2 ^ 52)%Z) by reflexivity.
  assert (0 < 2 ^ 52)%Z by reflexivity.
  nia.
Qed.

(** [toFixed(1)] of [x / 1000] rounded to a double, for a double [x] from
    1000 to [2^53]: the digits [N] are a nearest integer to [x / 100]. *)
Lemma toFixed_round_double_nearest (x : Q) (M T : Z) :
  (0 <= M < 2 ^ 53)%Z -> (0 < T)%Z -> x == M # Z.to_pos T -> 1000 <= x ->
  0 <= round_double (x / 1000) /\
  (10 <= Qfloor (10 * round_double (x / 1000) + (1 # 2)))%Z /\
  x / 100 - (1 # 2) <= inject_Z (Qfloor (10 * round_double (x / 1000) + (1 # 2))) /\
  inject_Z (Qfloor (10 * round_double (x / 1000) + (1 # 2))) <= x / 100 + (1 # 2).
Proof.
  intros HM HT Hx Hge.
  pose proof (div_repr x M T 1000 HT eq_refl Hx) as Hnd.
  change (inject_Z 1000) with 1000 in Hnd.
  assert (HMT : (1000 * T <= M)%Z).
  { rewrite Hx in Hge. unfold Qle in Hge. cbn [Qnum Qden] in Hge.
    rewrite Z2Pos.id in Hge by lia. lia. }
  assert (Hx100 : x / 100 == M # Z.to_pos (T * 100)).
  { rewrite Hx. unfold Qdiv, Qmult, Qinv, Qeq. cbn [Qnum Qden].
    rewrite !Z2Pos.id by lia. rewrite Pos2Z.inj_mul, Z2Pos.id by lia. lia. }
  rewrite Hx100.
  set (q := x / 1000) in *.
  assert (Hq : 0 < q).
  { destruct q as [n d]. unfold Qlt. cbn [Qnum Qden] in *.
    assert (0 < M * Zpos d)%Z by (apply Z.mul_pos_pos; lia).
    destruct (Z.le_gt_cases n 0); [|lia].
    assert (n * (T * 1000) <= 0)%Z by (apply Z.mul_nonpos_nonneg; lia). lia. }
  assert (Hq53 : q < inject_Z (2 ^ 53)).
  { destruct q as [n d]. unfold Qlt. cbn [Qnum Qden inject_Z] in *.
    assert (H1 : (n * (T * 1000) < 2 ^ 53 * Zpos d * (T * 1000))%Z).
    { rewrite Hnd. assert (0 < Zpos d)%Z by lia. nia. }
    apply Z.mul_lt_mono_pos_r in H1; lia. }
  destruct (round_double_pos q Hq Hq53) as (P & HP & Hr & Hb).
  rewrite Hr.
  pose proof (Qnum_pos_of_pos q Hq) as Hn.
  destruct q as [n d]. cbn [Qnum Qden] in *.
  set (D := Zpos d) in *. assert (HD : (0 < D)%Z) by (unfold D; lia).
  assert (HnD : (D <= n)%Z) by nia.
  assert (Hhalf : 1 # 2 <= n # d) by (unfold Qle; cbn [Qnum Qden]; fold D; lia).
  specialize (Hb Hhalf).
  pose proof (Z.div_mod (n * P) D ltac:(lia)) as Hdm.
  pose proof (Z.mod_pos_bound (n * P) D HD) as Hmb.
  set (r := rne (n * P) D).
  assert (Hrn : (- D <= 2 * (r * D - n * P) <= D)%Z).
  { unfold r. destruct (rne_spec (n * P) D HD) as [[-> H]|[-> H]]; nia. }
  assert (Hr0 : (P <= r)%Z) by nia.
  (* the grain is fine: 1000 T < 2 P *)
  assert (HTP : (1000 * T < 2 * P)%Z).
  { assert (H3 : (2 ^ 52 * D * (T * 1000) <= M * D * P)%Z) by nia.
    assert (H4 : (M * D * P < 2 ^ 53 * D * P)%Z) by nia.
    assert (H5 : (2 ^ 53 = 2 * 2 ^ 52)%Z) by reflexivity.
    assert (0 < 2 ^ 52)%Z by reflexivity.
    nia. }
  set (y := 10 * (r # Z.to_pos P) + (1 # 2)).
  pose proof (Qfloor_le y) as Hy1. pose proof (Qlt_floor y) as Hy2.
  set (N := Qfloor y) in *.
  unfold y, Qle, Qlt in Hy1, Hy2. cbn [Qnum Qden Qmult Qplus inject_Z] in Hy1, Hy2.
  rewrite ?Pos2Z.inj_mul, ?Z2Pos.id in Hy1, Hy2 by lia.
  split; [unfold Qle; cbn [Qnum Qden]; lia|].
  split; [nia|].
  unfold Qle, Qminus, Qplus, Qopp. cbn [Qnum Qden inject_Z].
  rewrite ?Pos2Z.inj_mul, ?Z2Pos.id by lia.
  split.
  - destruct (Z.le_gt_cases (2 * M - 100 * T) (200 * T * N)) as [Hok|Hbad]; [nia|].
    exfalso.
    assert (HM1 : (50 * T * (2 * N + 1) + 1 <= M)%Z) by lia.
    assert (HB : (20 * r < P * (2 * N + 1))%Z) by lia.
    assert (H1 : (20000 * T * r * D < 1000 * T * D * P * (2 * N + 1))%Z) by nia.
    assert (H2 : (20 * P * M * D - 10000 * T * D <= 20000 * T * r * D)%Z) by nia.
    assert (H3 : (1000 * T * P * (2 * N + 1) * D + 20 * P * D <= 20 * P * M * D)%Z) by nia.
    nia.
  - destruct (Z.le_gt_cases (200 * T * N) (2 * M + 100 * T)) as [Hok|Hbad]; [nia|].
    exfalso.
    assert (HM1 : (M + 1 <= 50 * T * (2 * N - 1))%Z) by lia.
    assert (HA : (P * (2 * N - 1) <= 20 * r)%Z) by lia.
    assert (H1 : (1000 * T * D * P * (2 * N - 1) <= 20000 * T * r * D)%Z) by nia.
    assert (H2 : (20000 * T * r * D <= 20 * P * M * D + 10000 * T * D)%Z) by nia.
    assert (H3 : (20 * P * M * D + 20 * P * D <= 1000 * T * P * (2 * N - 1) * D)%Z) by nia.
    nia.
Qed.

Lemma double_small_repr (x : Q) :
  is_double x -> 0 <= x -> x < inject_Z (2 ^ 53) ->
  exists M T : Z, (0 <= M < 2 ^ 53)%Z /\ (0 < T)%Z /\ x == M # Z.to_pos T.
Proof.
  intros (m & e & Hm & He & Hx) H0 H53.
  unfold pow2 in Hx. destruct (Z.leb_spec 0 e) as [Hle|Hlt].
  - exists (m * 2 ^ e)%Z, 1%Z.
    assert (Hx' : x == (m * 2 ^ e)%Z # 1).
    { rewrite Hx. unfold Qeq, Qmult. cbn [Qnum Qden inject_Z]. lia. }
    rewrite Hx' in H0, H53. unfold Qle, Qlt in H0, H53. cbn [Qnum Qden inject_Z] in H0, H53.
    repeat split; try lia. exact Hx'.
  - assert (Hp : (0 < 2 ^ (- e))%Z) by (apply Z.pow_pos_nonneg; lia).
    exists m, (2 ^ (- e))%Z.
    assert (Hx' : x == m # Z.to_pos (2 ^ (- e))).
    { rewrite Hx. unfold Qeq, Qmult. cbn [Qnum Qden inject_Z]. lia. }
    rewrite Hx' in H0. unfold Qle in H0. cbn [Qnum Qden] in H0.
    repeat split; try lia. exact Hx'.
Qed.

Lemma js_rem_3600_repr (s : Q) (M T : Z) :
  (0 <= M < 2 ^ 53)%Z -> (0 < T)%Z -> s == M # Z.to_pos T ->
  exists M' : Z, (0 <= M' < 2 ^ 53)%Z /\ js_rem s 3600 == M' # Z.to_pos T.
Proof.
  intros HM HT Hx. unfold js_rem, Q_trunc.
  assert (Hs0 : 0 <= s).
  { rewrite Hx. unfold Qle. cbn [Qnum Qden]. lia. }
  unfold Qdiv. change (/ 3600) with (1 # 3600).
  destruct (Qlt_le_dec (s * (1 # 3600)) 0) as [Hneg|_]; [exfalso; lra|].
  pose proof (Qfloor_bounds (s * (1 # 3600))) as [Hh1 _].
  assert (Hh0 : (0 <= Qfloor (s * (1 # 3600)))%Z)
    by (apply Qfloor_ge; unfold inject_Z; lra).
  set (h := Qfloor (s * (1 # 3600))) in *.
  exists (M - 3600 * h * T)%Z.
  rewrite Hx in Hh1. unfold Qle, Qmult in Hh1. cbn [Qnum Qden inject_Z] in Hh1.
  rewrite ?Pos2Z.inj_mul, ?Z2Pos.id in Hh1 by lia.
  split; [nia|].
  rewrite Hx. unfold Qeq, Qminus, Qplus, Qopp, Qmult. cbn [Qnum Qden inject_Z].
  rewrite ?Pos2Z.inj_mul, ?Z2Pos.id by lia. ring.
Qed.

(** For a non-negative double below [2^53] the two roundings of
    [formatDuration] do not change the floors. *)
Lemma formatDuration_exact (s : Q) :
  0 <= s -> is_double s -> s < inject_Z (2 ^ 53) ->
  formatDuration s =
    (if (0 <? Qfloor (s / 3600))%Z
     then show_Z (Qfloor (s / 3600)) ++ "h " ++ show_Z (Qfloor (js_rem s 3600 / 60)) ++ "m"
     else show_Z (Qfloor (js_rem s 3600 / 60)) ++ " min").
Proof.
  intros Hs Hd Hb.
  destruct (double_small_repr s Hd Hs Hb) as (M & T & HM & HT & Hx).
  destruct (js_rem_3600_repr s M T HM HT Hx) as (M' & HM' & Hx').
  assert (E1 : Qfloor (round_double (s / 3600)) = Qfloor (s / 3600))
    by exact (floor_round_double_div s M T 3600 HM HT eq_refl Hx).
  assert (E2 : Qfloor (round_double (js_rem s 3600 / 60)) = Qfloor (js_rem s 3600 / 60))
    by exact (floor_round_double_div (js_rem s 3600) M' T 60 HM' HT eq_refl Hx').
  unfold formatDuration, Math_floor. rewrite E1, E2. reflexivity.
Qed.

Lemma is_double_Z (z : Z) : (Z.abs z < 2 ^ 53)%Z -> is_double (inject_Z z).
Proof.
  intros H. exists z, 0%Z. split; [exact H|]. split; [lia|].
  unfold pow2. simpl. rewrite Qmult_1_r. reflexivity.
Qed.

Lemma lt_2_53_of_lt_3660 (s : Q) : s < 3660 -> s < inject_Z (2 ^ 53).
Proof.
  intros H. apply Qlt_trans with 3660; [exact H|]. unfold Qlt. cbn. reflexivity.
Qed.

(** ** C8 *)

(** C8: for [d >= 0], below 1000 [formatDistance d] is a whole number [n]
    of meters, [d] rounded ([|n - d| <= 1/2]), followed by " m"; from 1000
    on, for a JavaScript number [d] below [2^53], it is a number of
    kilometers with exactly one decimal, [n / 10] where [n] is [d / 100]
    rounded ([|n - d / 100| <= 1/2]: the binary64 quotient [d / 1000] may
    send a tie either way), followed by " km"; 950 gives "950 m", 1500
    gives "1.5 km" and 1450 gives "1.4 km". *)
Theorem formatDistance_units :
  forall d : Q, 0 <= d ->
    (d < 1000 ->
     exists n : N,
       formatDistance d = show_N n ++ " m" /\
       d - (1 # 2) < inject_Z (Z.of_N n) <= d + (1 # 2)) /\
    (1000 <= d -> is_double d -> d < inject_Z (2 ^ 53) ->
     exists n : N,
       formatDistance d =
         show_N (n / 10) ++ "." ++ String (digit_char (n mod 10)) "" ++ " km" /\
       (10 <= n)%N /\
       d / 100 - (1 # 2) <= inject_Z (Z.of_N n) <= d / 100 + (1 # 2)) /\
    formatDistance 950 = "950 m" /\ formatDistance 1500 = "1.5 km" /\
    formatDistance 1450 = "1.4 km".
Proof.
  intros d Hd. refine (conj _ (conj _ (conj _ (conj _ _)))); [| |vm_compute; reflexivity ..].
  - intros Hlt. unfold formatDistance.
    destruct (Qle_bool 1000 d) eqn:E.
    { apply Qle_bool_iff in E. exfalso. lra. }
    unfold Math_round.
    pose proof (Qfloor_bounds (d + (1 # 2))) as [Hlo Hhi].
    assert (Hz : (0 <= Qfloor (d + (1 # 2)))%Z) by (apply Qfloor_ge; unfold inject_Z; lra).
    exists (Z.to_N (Qfloor (d + (1 # 2)))).
    rewrite show_Z_nonneg by exact Hz. rewrite Z2N.id by exact Hz.
    split; [reflexivity|]. split; lra.
  - intros Hge Hdbl Hb. unfold formatDistance.
    destruct (Qle_bool 1000 d) eqn:E.
    2:{ exfalso. assert (Qle_bool 1000 d = true) by (apply Qle_bool_iff; exact Hge).
        congruence. }
    destruct (double_small_repr d Hdbl Hd Hb) as (M & T & HM & HT & Hx).
    destruct (toFixed_round_double_nearest d M T HM HT Hx Hge) as (Hr0 & Hz & Hlo & Hhi).
    unfold toFixed1.
    destruct (Qlt_le_dec (round_double (d / 1000)) 0) as [Hneg|_]; [exfalso; lra|].
    set (z := Qfloor (10 * round_double (d / 1000) + (1 # 2))) in *.
    exists (Z.to_N z).
    assert (H10 : (10 <= Z.to_N z)%N) by lia.
    rewrite (show_N_step (Z.to_N z) H10).
    set (a := show_N (Z.to_N z / 10)).
    set (c := digit_char (Z.to_N z mod 10)).
    assert (Ha : (1 <= String.length a)%nat).
    { pose proof (show_N_nonempty (Z.to_N z / 10)) as Hne. fold a in Hne.
      destruct a; [contradiction|simpl; lia]. }
    rewrite !length_append_char.
    replace (Nat.leb (S (String.length a)) 1) with false
      by (symmetry; apply Nat.leb_gt; lia).
    rewrite !length_append_char.
    replace (S (String.length a) - 1)%nat with (String.length a) by lia.
    rewrite substring_prefix, substring_last.
    split; [simpl; rewrite !string_app_assoc; reflexivity|].
    split; [exact H10|]. rewrite Z2N.id by lia. split; assumption.
Qed.

(** ** C9 *)

(** C9: for a JavaScript number [s] with [0 <= s < 2^53], below one hour
    [formatDuration s] is the number [m] of whole minutes in [s] followed
    by " min"; from one hour on it is "<h>h <m>m" with [h >= 1] the whole
    hours and [m < 60] the whole minutes of the rest; 125 gives "2 min"
    and 4000 gives "1h 6m". *)
Theorem formatDuration_units :
  forall s : Q, 0 <= s -> is_double s -> s < inject_Z (2 ^ 53) ->
    (s < 3600 ->
     exists m : Z,
       formatDuration s = show_Z m ++ " min" /\ (0 <= m)%Z /\
       60 * inject_Z m <= s < 60 * inject_Z m + 60) /\
    (3600 <= s ->
     exists h m : Z,
       formatDuration s = show_Z h ++ "h " ++ show_Z m ++ "m" /\
       (1 <= h)%Z /\ (0 <= m < 60)%Z /\
       3600 * inject_Z h + 60 * inject_Z m <= s <
       3600 * inject_Z h + 60 * inject_Z m + 60) /\
    formatDuration 125 = "2 min" /\ formatDuration 4000 = "1h 6m".
Proof.
  intros s Hs Hdbl Hb.
  assert (Hgen :
    exists h m : Z,
      formatDuration s =
        (if (0 <? h)%Z then show_Z h ++ "h " ++ show_Z m ++ "m"
         else show_Z m ++ " min") /\
      inject_Z h <= s * (1 # 3600) < inject_Z h + 1 /\
      inject_Z m <= (s - 3600 * inject_Z h) * (1 # 60) < inject_Z m + 1 /\
      (0 <= h)%Z /\ (0 <= m < 60)%Z).
  { rewrite (formatDuration_exact s Hs Hdbl Hb).
    unfold js_rem, Q_trunc, Qdiv.
    change (/ 3600) with (1 # 3600). change (/ 60) with (1 # 60).
    destruct (Qlt_le_dec (s * (1 # 3600)) 0) as [Hneg|_]; [exfalso; lra|].
    pose proof (Qfloor_bounds (s * (1 # 3600))) as [Hh1 Hh2].
    remember (Qfloor (s * (1 # 3600))) as h eqn:Eh.
    pose proof (Qfloor_bounds ((s - 3600 * inject_Z h) * (1 # 60))) as [Hm1 Hm2].
    remember (Qfloor ((s - 3600 * inject_Z h) * (1 # 60))) as m eqn:Em.
    exists h, m. split; [reflexivity|]. split; [lra|]. split; [lra|]. split.
    - rewrite Eh. apply Qfloor_ge. unfold inject_Z. lra.
    - split.
      + rewrite Em. apply Qfloor_ge. change (inject_Z 0) with 0. lra.
      + rewrite Em. apply Qfloor_lt. change (inject_Z 60) with 60. lra. }
  destruct Hgen as (h & m & Hf & [Hh1 Hh2] & [Hm1 Hm2] & Hh0 & Hm).
  split; [|split; [|split; vm_compute; reflexivity]].
  - intros Hlt.
    assert (Hh : h = 0%Z).
    { assert (h < 1)%Z; [|lia].
      rewrite Zlt_Qlt. unfold inject_Z at 2. lra. }
    subst h. exists m. rewrite Hf. simpl (0 <? 0)%Z.
    split; [reflexivity|]. split; [lia|].
    replace (inject_Z 0) with 0 in Hm1, Hm2 by reflexivity.
    split; lra.
  - intros Hge.
    assert (Hh : (1 <= h)%Z).
    { assert (0 < h)%Z; [|lia].
      rewrite Zlt_Qlt. unfold inject_Z at 1. lra. }
    exists h, m. rewrite Hf.
    replace (0 <? h)%Z with true by (symmetry; apply Z.ltb_lt; lia).
    split; [reflexivity|]. split; [exact Hh|]. split; [exact Hm|].
    split; lra.
Qed.

(** ** Witnesses *)

Lemma ready_s_idle : ready s_idle.
Proof. unfold ready; simpl; repeat split; discriminate. Qed.

Lemma formatManeuver_total_continue_witness :
  ~ In "uturn" known_types /\
  formatManeuver (Some "uturn") None (Some "Mall Road") = "Continue onto Mall Road".
Proof.
  assert (H : ~ In "uturn" known_types) by (simpl; intuition discriminate).
  split; [exact H|].
  exact (proj2 (formatManeuver_total_continue (Some "uturn") None (Some "Mall Road")) H).
Defined.

Lemma buildStep_defaults_witness :
  let st := mkRawStep None 120 15 None in
  (raw_name st = None \/ raw_name st = Some "") /\
  name (buildStep st) = "Unnamed road" /\
  instruction (buildStep st) = formatManeuver None None None.
Proof.
  simpl. split; [left; reflexivity|]. split.
  - exact (proj1 (buildStep_defaults (mkRawStep None 120 15 None)) (or_introl eq_refl)).
  - exact (proj1 (proj2 (proj2 (buildStep_defaults (mkRawStep None 120 15 None))))
             (or_introl eq_refl)).
Defined.

Lemma calculateRoute_first_candidate_totals_witness :
  ready s_idle /\
  exists info,
    routeInfo (calculateRoute s_idle
                 (FetchBody (mkRawResponse "Ok" (Some [routeDrive; routeCycle])))) =
      Some info /\
    distance info = 300 /\ duration info = 30 /\
    forall rest',
      calculateRoute s_idle (FetchBody (mkRawResponse "Ok" (Some (routeDrive :: rest')))) =
      calculateRoute s_idle (FetchBody (mkRawResponse "Ok" (Some [routeDrive; routeCycle]))).
Proof.
  split; [exact ready_s_idle|].
  exact (calculateRoute_first_candidate_totals s_idle "Ok" routeDrive [routeCycle]
           ready_s_idle eq_refl).
Defined.

Lemma calculateRoute_steps_in_order_witness :
  ready s_idle /\
  exists info,
    routeInfo (calculateRoute s_idle
                 (FetchBody (mkRawResponse "Ok" (Some [routeDrive])))) = Some info /\
    steps info = map buildStep [turnStep "A"; turnStep "B"; turnStep "C"] /\
    steps info <> [].
Proof.
  split; [exact ready_s_idle|].
  destruct (calculateRoute_steps_in_order s_idle "Ok" routeDrive [] ready_s_idle eq_refl)
    as (info & Hinfo & Hsteps & Hne).
  exists info. split; [exact Hinfo|]. split; [exact Hsteps|].
  apply Hne. exists [mkRawLeg (Some [turnStep "A"; turnStep "B"; turnStep "C"])].
  eexists. exists (turnStep "A"), [turnStep "B"; turnStep "C"].
  split; [reflexivity|]. split; [left; reflexivity|reflexivity].
Defined.

Lemma calculateRoute_failures_clear_witness :
  ready s_idle /\ routing_failure FetchRejected /\
  routing_failure (FetchBody (mkRawResponse "Ok" (Some []))) /\
  calculateRoute s_idle FetchRejected =
    calculateRoute s_idle (FetchBody (mkRawResponse "Ok" (Some []))) /\
  routeInfo (calculateRoute s_idle FetchRejected) = None.
Proof.
  split; [exact ready_s_idle|]. split; [apply rf_network|]. split; [apply rf_empty_routes|].
  destruct (calculateRoute_failures_clear s_idle FetchRejected
              (FetchBody (mkRawResponse "Ok" (Some []))) ready_s_idle
              rf_network (rf_empty_routes "Ok")) as (Heq & Hnone & _).
  split; [exact Heq|exact Hnone].
Defined.

Lemma voice_guidance_gating_witness :
  let v := toggle voice_init in
  enabled v = false /\ speak "Turn left" v = v /\
  voice_reachable voice_init /\ (length (synth_queue voice_init) <= 1)%nat.
Proof.
  simpl. split; [reflexivity|]. split.
  - exact (proj1 (voice_guidance_gating (toggle voice_init) "Turn left") eq_refl).
  - split; [constructor|].
    exact (proj2 (proj2 (proj2 (proj2 (voice_guidance_gating voice_init "x")))) vr_init).
Defined.

Lemma formatDistance_units_witness :
  (0 <= 1450 /\ 1000 <= 1450 /\ is_double 1450 /\ 1450 < inject_Z (2 ^ 53)) /\
  (exists n : N,
     formatDistance 1450 =
       show_N (n / 10) ++ "." ++ String (digit_char (n mod 10)) "" ++ " km" /\
     (10 <= n)%N /\
     1450 / 100 - (1 # 2) <= inject_Z (Z.of_N n) <= 1450 / 100 + (1 # 2)) /\
  formatDistance 1450 = "1.4 km".
Proof.
  assert (H0 : 0 <= 1450) by (unfold Qle; simpl; lia).
  assert (H1 : 1000 <= 1450) by (unfold Qle; simpl; lia).
  assert (H2 : is_double 1450) by exact (is_double_Z 1450 eq_refl).
  assert (H3 : 1450 < inject_Z (2 ^ 53)) by (unfold Qlt; cbn; reflexivity).
  split; [split; [exact H0|split; [exact H1|split; [exact H2|exact H3]]]|].
  split; [exact (proj1 (proj2 (formatDistance_units 1450 H0)) H1 H2 H3)|].
  exact (proj2 (proj2 (proj2 (proj2 (formatDistance_units 1450 H0))))).
Defined.

Lemma formatDuration_units_witness :
  (0 <= 4000 /\ is_double 4000 /\ 4000 < inject_Z (2 ^ 53) /\ 3600 <= 4000) /\
  (exists h m : Z,
     formatDuration 4000 = show_Z h ++ "h " ++ show_Z m ++ "m" /\
     (1 <= h)%Z /\ (0 <= m < 60)%Z /\
     3600 * inject_Z h + 60 * inject_Z m <= 4000 <
     3600 * inject_Z h + 60 * inject_Z m + 60) /\
  formatDuration 4000 = "1h 6m".
Proof.
  assert (H0 : 0 <= 4000) by (unfold Qle; simpl; lia).
  assert (H1 : is_double 4000) by exact (is_double_Z 4000 eq_refl).
  assert (H2 : 4000 < inject_Z (2 ^ 53)) by (unfold Qlt; cbn; reflexivity).
  assert (H3 : 3600 <= 4000) by (unfold Qle; simpl; lia).
  split; [split; [exact H0|split; [exact H1|split; [exact H2|exact H3]]]|].
  split; [exact (proj1 (proj2 (formatDuration_units 4000 H0 H1 H2)) H3)|].
  exact (proj2 (proj2 (proj2 (formatDuration_units 4000 H0 H1 H2)))).
Defined.

(** * Further properties of MapViewer.tsx *)

(** ** [getManeuverIcon] *)

(** A step whose maneuver type is missing or empty is shown with the
    straight arrow, whatever its modifier. *)
Theorem missing_type_icon_straight :
  forall step : RawStep,
    truthy (opt_bind (raw_maneuver step) raw_type) = false ->
    getManeuverIcon (maneuver_type (maneuver (buildStep step)))
                    (maneuver_modifier (maneuver (buildStep step))) = ArrowUp.
Proof.
  intros step H. unfold buildStep. simpl.
  destruct (opt_bind (raw_maneuver step) raw_type) as [t|]; simpl in *;
    [|reflexivity].
  destruct (String.eqb t "") eqn:E; [reflexivity|discriminate].
Qed.

Lemma side_icon_ext (m1 m2 : option string) :
  opt_includes m1 "left" = opt_includes m2 "left" ->
  opt_includes m1 "right" = opt_includes m2 "right" ->
  forall l r, side_icon m1 l r = side_icon m2 l r.
Proof. intros Hl Hr l r. unfold side_icon. rewrite Hl, Hr. reflexivity. Qed.

(** The icon depends on the modifier only through whether it contains
    "left" and whether it contains "right"; a modifier containing "left"
    (also one containing "right" as well) gets the icon of "left". *)
Theorem icon_depends_on_sides :
  forall type m1 m2,
    (opt_includes m1 "left" = opt_includes m2 "left" ->
     opt_includes m1 "right" = opt_includes m2 "right" ->
     getManeuverIcon type m1 = getManeuverIcon type m2) /\
    (opt_includes m1 "left" = true ->
     getManeuverIcon type m1 = getManeuverIcon type (Some "left")).
Proof.
  intros type m1 m2. split.
  - intros Hl Hr. unfold getManeuverIcon.
    rewrite !(side_icon_ext m1 m2 Hl Hr). reflexivity.
  - intros Hl. unfold getManeuverIcon.
    assert (Hs : forall l r, side_icon m1 l r = side_icon (Some "left") l r).
    { intros l r. unfold side_icon. rewrite Hl. reflexivity. }
    rewrite !Hs. reflexivity.
Qed.

(** ** Route planner panel *)

(** Closing the route planner clears both points, the itinerary, the
    steps list and the cursor, leaves no point being selected, and issues
    no route request. *)
Theorem close_planner_resets :
  forall s o,
    isRoutingMode s = true ->
    let s' := react_panel s ToggleRoutingModeButton o in
    isRoutingMode s' = false /\ startPoint s' = None /\ endPoint s' = None /\
    routeInfo s' = None /\ selectingPoint s' = None /\ showSteps s' = false /\
    currentStepIndex s' = 0%nat /\
    s' = toggleRoutingMode s.
Proof.
  intros [? ? ? ? ? ? ? ? ? ?] o H; simpl in H; subst.
  unfold react_panel; simpl. rewrite andb_false_r. repeat split.
Qed.

(** Opening the planner with no points and clicking the map twice sets the
    start then the end point; the first click issues no request, the second
    exactly one, whose outcome alone decides the itinerary; no point is
    being selected afterwards. *)
Theorem pick_two_points_flow :
  forall s p q o1 o1' o2 o0,
    isRoutingMode s = false -> mapReady s = true ->
    startPoint s = None -> endPoint s = None ->
    let s1 := react_panel s ToggleRoutingModeButton o0 in
    let s2 := react s1 (ClickMap p) o1 in
    let s3 := react s2 (ClickMap q) o2 in
    s2 = react s1 (ClickMap p) o1' /\
    startPoint s2 = Some p /\ endPoint s2 = None /\
    startPoint s3 = Some p /\ endPoint s3 = Some q /\ selectingPoint s3 = None /\
    isCalculatingRoute s3 = false /\
    routeInfo s3 = match o2 with
                   | FetchBody d => routeOfResponse d
                   | FetchRejected => None
                   end.
Proof.
  intros [? ? ? ? ? ? ? ? ? ?] p q o1 o1' o2 o0 Hr Hm Hs He; simpl in *; subst.
  cbv zeta.
  destruct o2 as [|d]; [|destruct (routeOfResponse d) eqn:Ed];
    repeat split; cbn; try rewrite Ed; reflexivity.
Qed.

(** ** Map clicks and travel modes *)

(** A map click outside the route planner, or while no point is being
    selected, changes nothing and issues no request. *)
Theorem click_ignored_when_not_selecting :
  forall s p o,
    isRoutingMode s = false \/ selectingPoint s = None ->
    react s (ClickMap p) o = s.
Proof.
  intros [mr rm st en ri ic tm sp ss ci] p o [H | H]; simpl in H; subst;
    unfold react; simpl; [reflexivity|].
  destruct rm; reflexivity.
Qed.

(** Selecting the travel mode already in use changes nothing and issues no
    request. *)
Theorem select_same_mode_noop :
  forall s o, react s (SelectTravelMode (travelMode s)) o = s.
Proof.
  intros [? ? ? ? ? ? [] ? ? ?] o; reflexivity.
Qed.

(** Selecting another travel mode with both points placed recalculates:
    the old itinerary is dropped whatever the outcome, and replaced by the
    new route only when the response yields one. *)
Theorem select_new_mode_recalculates :
  forall s m o,
    ready s -> TravelMode_eqb m (travelMode s) = false ->
    let s' := react s (SelectTravelMode m) o in
    s' = calculateRoute (set_travelMode m s) o /\
    travelMode s' = m /\ isCalculatingRoute s' = false /\
    routeInfo s' = match o with
                   | FetchBody d => routeOfResponse d
                   | FetchRejected => None
                   end.
Proof.
  intros [? ? [?|] [?|] ? ? ? ? ? ?] m o (Hs & He & Hm) Hne; simpl in *;
    try congruence; subst.
  unfold react; simpl. rewrite Hne. simpl.
  destruct o as [|d]; [|destruct (routeOfResponse d) eqn:Ed];
    repeat split; cbn; try rewrite Ed; reflexivity.
Qed.

(** ** Route panel *)

(** While a calculation runs the panel shows the spinner; once it ends the
    panel shows the new route if the response gave one, and is hidden
    otherwise (a failed recalculation hides the previous itinerary). *)
Theorem route_panel_during_and_after :
  forall s o,
    ready s ->
    (exists s1, calculateRoute_begin s = Some s1 /\ routePanel s1 = PanelLoading) /\
    routePanel (calculateRoute s o) =
      match o with
      | FetchBody d =>
          match routeOfResponse d with
          | Some r => PanelRoute r
          | None => PanelHidden
          end
      | FetchRejected => PanelHidden
      end.
Proof.
  intros [? ? [?|] [?|] ? ? ? ? ? ?] o (Hs & He & Hm); simpl in *;
    try congruence; subst.
  split.
  - eexists. split; reflexivity.
  - destruct o as [|d]; [reflexivity|].
    unfold calculateRoute; simpl. unfold calculateRoute_end.
    destruct (routeOfResponse d); reflexivity.
Qed.

(** ** Overlapping requests *)

Lemma react_ClearRouteButton (s : UIState) (o : FetchOutcome) :
  react s ClearRouteButton o = clearRoute s.
Proof.
  unfold react. simpl.
  destruct (is_some (startPoint s) || is_some (endPoint s)); reflexivity.
Qed.

(** Clearing the route while a calculation is in flight does not cancel
    it: when the response arrives it installs its itinerary although both
    points are gone. *)
Theorem clear_during_calculation_reinstalls :
  forall s s1 o d r,
    calculateRoute_begin s = Some s1 ->
    routeOfResponse d = Some r ->
    let s2 := react s1 ClearRouteButton o in
    let s3 := calculateRoute_end s2 (FetchBody d) in
    routeInfo s2 = None /\
    startPoint s3 = None /\ endPoint s3 = None /\
    routeInfo s3 = Some r /\ isCalculatingRoute s3 = false.
Proof.
  intros s s1 o d r Hb Hd.
  assert (Hs1 : s1 = set_routeInfo None (set_isCalculatingRoute true s)).
  { unfold calculateRoute_begin in Hb.
    destruct (startPoint s), (endPoint s), (mapReady s); try discriminate.
    injection Hb as <-. reflexivity. }
  subst s1. cbv zeta. rewrite react_ClearRouteButton.
  unfold calculateRoute_end. rewrite Hd.
  repeat split.
Qed.

(** Two calculations in flight end in arrival order, not request order:
    when the travel mode changes during a calculation and the newer
    response arrives first, the older response overwrites the itinerary,
    which then belongs to the previous mode while the new mode stays
    selected. *)
Theorem stale_response_wins :
  forall s m oB dA r,
    ready s -> TravelMode_eqb m (travelMode s) = false ->
    routeOfResponse dA = Some r ->
    exists sA sB,
      calculateRoute_begin s = Some sA /\
      snd (handle sA (SelectTravelMode m)) = true /\
      calculateRoute_begin (fst (handle sA (SelectTravelMode m))) = Some sB /\
      let fin := calculateRoute_end (calculateRoute_end sB oB) (FetchBody dA) in
      routeInfo fin = Some r /\ travelMode fin = m /\
      isCalculatingRoute fin = false.
Proof.
  intros s m oB dA r (Hs & He & Hm) Hne Hd; destruct s as [? ? [?|] [?|] ? ? ? ? ? ?]; simpl in *;
    try congruence; subst.
  do 2 eexists. split; [reflexivity|]. split.
  - simpl. rewrite Hne. reflexivity.
  - split; [reflexivity|]. cbv zeta.
    unfold calculateRoute_end; cbn. rewrite Hd.
    destruct oB as [|dB]; cbn; [|destruct (routeOfResponse dB)]; repeat split.
Qed.

(** ** Voice guidance *)

(** Selecting a step sets the cursor and, when the voice is on and idle,
    leaves exactly one utterance queued, "<instruction>. <distance>": the
    utterances queued before are cancelled, each owing an error event.
    When the voice is off or speaking, the voice is left unchanged. *)
Theorem goToStep_speaks_one :
  forall index st s v,
    let '(s', v') := goToStep_voice index st s v in
    currentStepIndex s' = index /\
    (enabled v = true -> speaking v = false ->
     synth_queue v' = [instruction st ++ ". " ++ formatDistance (step_distance st)] /\
     synth_started v' = false /\
     pending_errors v' = (pending_errors v + length (synth_queue v))%nat) /\
    (enabled v = false \/ speaking v = true -> v' = v).
Proof.
  intros index st s [[] [] q b k]; simpl; repeat split; try reflexivity;
    try discriminate; intros [H|H]; discriminate.
Qed.

(** Turning the voice off and on again while an utterance is playing
    cancels it, but [speaking] stays set until its error event arrives:
    until then every request to speak is dropped; after it, the next one
    is queued. *)
Theorem toggle_twice_blocks_until_error :
  forall v t,
    enabled v = true -> speaking v = true -> synth_queue v <> [] ->
    let w := toggle (toggle v) in
    enabled w = true /\ synth_queue w = [] /\ speak t w = w /\
    exists w', platform_error w = Some w' /\ synth_queue (speak t w') = [t].
Proof.
  intros [e sp q b k] t He Hs Hq; simpl in *; subst.
  destruct q as [|x q]; [congruence|].
  cbv zeta. repeat split.
  unfold platform_error; simpl. rewrite Nat.add_succ_r.
  eexists. split; reflexivity.
Qed.

(** In every reachable state an utterance marked as started is still
    queued, and [speaking] is set only while an utterance has started or
    an error event is still due. *)
Theorem voice_reachable_speaking_accounted :
  forall v, voice_reachable v ->
    (synth_started v = true -> synth_queue v <> []) /\
    (speaking v = true -> synth_started v = true \/ (0 < pending_errors v)%nat).
Proof.
  induction 1 as [|v v' _ [IH1 IH2] Hst].
  - split; intros H; discriminate.
  - destruct Hst as [v t|v|v|v v' Hs|v v' Hs|v v' Hs].
    + unfold speak. destruct (negb (enabled v) || speaking v) eqn:E;
        [split; assumption|].
      apply orb_false_iff in E as [_ E].
      simpl. split; intros H; [discriminate|congruence].
    + unfold toggle. simpl. destruct (enabled v); simpl; [|split; assumption].
      split; intros H; [discriminate|]. right.
      destruct (IH2 H) as [H1|H1]; [|lia].
      specialize (IH1 H1). destruct (synth_queue v); [congruence|simpl; lia].
    + simpl. split; intros H; discriminate.
    + unfold platform_start in Hs.
      destruct (synth_queue v) eqn:Eq; [discriminate|].
      destruct (synth_started v); [discriminate|].
      injection Hs as <-. simpl. split; intros _; [congruence|left; reflexivity].
    + unfold platform_end in Hs.
      destruct (synth_queue v); [discriminate|].
      destruct (synth_started v); [|discriminate].
      injection Hs as <-. simpl. split; intros H; discriminate.
    + unfold platform_error in Hs.
      destruct (pending_errors v); [discriminate|].
      injection Hs as <-. simpl. split; [assumption|intros H; discriminate].
Qed.

(** ** Formatting edges *)

(** Just below 1000 meters the distance rounds up to "1000 m", while 1000
    meters itself is shown as "1.0 km". *)
Theorem formatDistance_rounds_to_1000_m :
  forall d, 1999 # 2 <= d < 1000 ->
    formatDistance d = "1000 m" /\ formatDistance 1000 = "1.0 km".
Proof.
  intros d [H1 H2]. split; [|vm_compute; reflexivity].
  unfold formatDistance.
  destruct (Qle_bool 1000 d) eqn:E.
  { apply Qle_bool_iff in E. exfalso. lra. }
  unfold Math_round.
  assert (Hf : Qfloor (d + (1 # 2)) = 1000%Z).
  { apply Z.le_antisymm.
    - assert (Qfloor (d + (1 # 2)) < 1001)%Z; [|lia].
      apply Qfloor_lt. unfold inject_Z. lra.
    - apply Qfloor_ge. unfold inject_Z. lra. }
  rewrite Hf. reflexivity.
Qed.

(** For a JavaScript number [s], in the first minute after a whole hour
    the duration reads "1h 0m" (and so on for later hours), and below one
    minute it reads "0 min". *)
Theorem formatDuration_zero_minutes :
  forall s, is_double s ->
    (3600 <= s < 3660 -> formatDuration s = "1h 0m") /\
    (0 <= s < 60 -> formatDuration s = "0 min").
Proof.
  intros s Hd. split; intros [H1 H2];
    (rewrite (formatDuration_exact s ltac:(lra) Hd (lt_2_53_of_lt_3660 s ltac:(lra))));
    unfold js_rem, Q_trunc, Qdiv;
    change (/ 3600) with (1 # 3600); change (/ 60) with (1 # 60).
  - destruct (Qlt_le_dec (s * (1 # 3600)) 0) as [Hneg|_]; [exfalso; lra|].
    assert (Hh : Qfloor (s * (1 # 3600)) = 1%Z).
    { apply Z.le_antisymm.
      - assert (Qfloor (s * (1 # 3600)) < 2)%Z; [|lia].
        apply Qfloor_lt. unfold inject_Z. lra.
      - apply Qfloor_ge. unfold inject_Z. lra. }
    rewrite Hh.
    assert (Hm : Qfloor ((s - 3600 * inject_Z 1) * (1 # 60)) = 0%Z).
    { apply Z.le_antisymm.
      - assert (Qfloor ((s - 3600 * inject_Z 1) * (1 # 60)) < 1)%Z; [|lia].
        apply Qfloor_lt. unfold inject_Z. lra.
      - apply Qfloor_ge. unfold inject_Z. lra. }
    rewrite Hm. reflexivity.
  - destruct (Qlt_le_dec (s * (1 # 3600)) 0) as [Hneg|_]; [exfalso; lra|].
    assert (Hh : Qfloor (s * (1 # 3600)) = 0%Z).
    { apply Z.le_antisymm.
      - assert (Qfloor (s * (1 # 3600)) < 1)%Z; [|lia].
        apply Qfloor_lt. unfold inject_Z. lra.
      - apply Qfloor_ge. unfold inject_Z. lra. }
    rewrite Hh.
    assert (Hm : Qfloor ((s - 3600 * inject_Z 0) * (1 # 60)) = 0%Z).
    { apply Z.le_antisymm.
      - assert (Qfloor ((s - 3600 * inject_Z 0) * (1 # 60)) < 1)%Z; [|lia].
        apply Qfloor_lt. unfold inject_Z. lra.
      - apply Qfloor_ge. unfold inject_Z. lra. }
    rewrite Hm. reflexivity.
Qed.

(** ** Steps list *)

(** The road name under a step is shown exactly when the response gave a
    non-empty name other than "Unnamed road": the placeholder put in for a
    missing name is never displayed. *)
Theorem road_name_shown_iff_given :
  forall step : RawStep,
    showsRoadName (buildStep step) =
      match raw_name step with
      | Some n => negb (String.eqb n "") && negb (String.eqb n "Unnamed road")
      | None => false
      end.
Proof.
  intros step. unfold showsRoadName, buildStep. simpl.
  destruct (raw_name step) as [n|]; [|reflexivity].
  simpl. destruct (String.eqb n "") eqn:E; [|rewrite E; reflexivity].
  apply String.eqb_eq in E. subst. reflexivity.
Qed.

Lemma activeFlags_count_seq (c a n : nat) :
  length (filter (fun b : bool => b) (map (fun i => Nat.eqb i c) (seq a n))) =
  (if Nat.leb a c && Nat.ltb c (a + n) then 1 else 0)%nat.
Proof.
  revert a. induction n as [|n IH]; intros a; cbn [seq map].
  - destruct (Nat.leb a c) eqn:E1, (Nat.ltb c (a + 0)) eqn:E; simpl; try reflexivity.
    apply Nat.ltb_lt in E. apply Nat.leb_le in E1. lia.
  - destruct (Nat.eqb a c) eqn:E; cbn [filter length]; rewrite IH.
    + apply Nat.eqb_eq in E. subst.
      replace (Nat.leb (S c) c) with false by (symmetry; apply Nat.leb_gt; lia).
      replace (Nat.leb c c) with true by (symmetry; apply Nat.leb_le; lia).
      replace (Nat.ltb c (c + S n)) with true by (symmetry; apply Nat.ltb_lt; lia).
      reflexivity.
    + apply Nat.eqb_neq in E.
      destruct (Nat.leb (S a) c) eqn:E1, (Nat.leb a c) eqn:E2,
        (Nat.ltb c (S a + n)) eqn:E3, (Nat.ltb c (a + S n)) eqn:E4;
        simpl; try reflexivity;
        repeat match goal with
        | H : Nat.leb _ _ = true |- _ => apply Nat.leb_le in H
        | H : Nat.leb _ _ = false |- _ => apply Nat.leb_gt in H
        | H : Nat.ltb _ _ = true |- _ => apply Nat.ltb_lt in H
        | H : Nat.ltb _ _ = false |- _ => apply Nat.ltb_ge in H
        end; lia.
Qed.

(** At most one step of the list is highlighted as active, and one is
    exactly when the cursor is within the list; a cursor left past the
    end highlights none. *)
Theorem active_step_unique :
  forall ss cursor,
    length (filter (fun b : bool => b) (activeFlags ss cursor)) =
      (if Nat.ltb cursor (length ss) then 1 else 0)%nat /\
    (forall i : nat, (i < length ss)%nat ->
       nth_error (activeFlags ss cursor) i = Some (Nat.eqb i cursor)).
Proof.
  intros ss cursor. split.
  - unfold activeFlags. rewrite activeFlags_count_seq. reflexivity.
  - intros i Hi. unfold activeFlags.
    rewrite nth_error_map, nth_error_seq.
    destruct (Nat.ltb_spec i (length ss)); [reflexivity|lia].
Qed.

(** ** Re-picking the start point *)

(** Removing the start point while the end stays, then clicking the map,
    places the new start and recalculates with the kept end; the planner
    is then still selecting the end, which neither row click changes, so
    the next map click moves the end point. *)
Theorem repick_start_keeps_selecting_end :
  forall s p q p' o1 o2 o3 o4,
    isRoutingMode s = true -> mapReady s = true -> endPoint s = Some q ->
    let s1 := react s ClearStartButton o1 in
    let s2 := react s1 (ClickMap p) o2 in
    startPoint s2 = Some p /\ endPoint s2 = Some q /\
    isCalculatingRoute s2 = false /\
    routeInfo s2 = match o2 with
                   | FetchBody d => routeOfResponse d
                   | FetchRejected => None
                   end /\
    selectingPoint s2 = Some slot_end /\
    react_panel s2 StartRowClick o3 = s2 /\ react_panel s2 EndRowClick o3 = s2 /\
    endPoint (react s2 (ClickMap p') o4) = Some p'.
Proof.
  intros s p q p' o1 o2 o3 o4 Hr Hm He.
  destruct s as [mr rm st en ri ic tm sp ss ci]; simpl in Hr, Hm, He; subst.
  assert (E1 : react (mkUIState true true st (Some q) ri ic tm sp ss ci) ClearStartButton o1
               = mkUIState true true None (Some q) ri ic tm (Some slot_start) ss ci)
    by (destruct st; reflexivity).
  cbv zeta. rewrite E1.
  set (ri2 := match o2 with
              | FetchBody d => routeOfResponse d
              | FetchRejected => None
              end).
  assert (E2 : react (mkUIState true true None (Some q) ri ic tm (Some slot_start) ss ci)
                 (ClickMap p) o2
               = mkUIState true true (Some p) (Some q) ri2 false tm (Some slot_end) ss ci).
  { unfold ri2. destruct o2 as [|d]; [reflexivity|].
    unfold react, calculateRoute, calculateRoute_end. simpl.
    destruct (routeOfResponse d); reflexivity. }
  rewrite E2.
  repeat split; try reflexivity.
  unfold react; simpl.
  destruct o4 as [|d4]; [reflexivity|].
  unfold calculateRoute, calculateRoute_end. simpl.
  destruct (routeOfResponse d4); reflexivity.
Qed.

(** ** Instances of the further properties *)

Lemma missing_type_icon_straight_witness :
  truthy (opt_bind (raw_maneuver (mkRawStep (Some (mkRawManeuver None (Some "left") None None)) 50 5 None)) raw_type) = false /\
  getManeuverIcon
    (maneuver_type (maneuver (buildStep (mkRawStep (Some (mkRawManeuver None (Some "left") None None)) 50 5 None))))
    (maneuver_modifier (maneuver (buildStep (mkRawStep (Some (mkRawManeuver None (Some "left") None None)) 50 5 None)))) = ArrowUp.
Proof.
  split; [reflexivity|]. apply missing_type_icon_straight. reflexivity.
Defined.

Lemma icon_depends_on_sides_witness :
  opt_includes (Some "slight left") "left" = true /\
  getManeuverIcon "fork" (Some "slight left") = getManeuverIcon "fork" (Some "left") /\
  getManeuverIcon "turn" (Some "sharp left") = getManeuverIcon "turn" (Some "slight left").
Proof.
  split; [reflexivity|]. split.
  - exact (proj2 (icon_depends_on_sides "fork" (Some "slight left") None) eq_refl).
  - exact (proj1 (icon_depends_on_sides "turn" (Some "sharp left") (Some "slight left"))
                 eq_refl eq_refl).
Defined.

Lemma close_planner_resets_witness :
  isRoutingMode s_nav = true /\
  routeInfo (react_panel s_nav ToggleRoutingModeButton (FetchBody respDrive)) = None.
Proof.
  split; [reflexivity|].
  destruct (close_planner_resets s_nav (FetchBody respDrive) eq_refl)
    as (_ & _ & _ & H & _). exact H.
Defined.

Lemma pick_two_points_flow_witness :
  isRoutingMode s_closed = false /\ mapReady s_closed = true /\
  startPoint s_closed = None /\ endPoint s_closed = None /\
  routeInfo (react (react (react_panel s_closed ToggleRoutingModeButton FetchRejected)
                      (ClickMap pointA) FetchRejected)
               (ClickMap pointB) (FetchBody respDrive)) = routeOfResponse respDrive.
Proof.
  do 4 (split; [reflexivity|]).
  destruct (pick_two_points_flow s_closed pointA pointB FetchRejected FetchRejected
              (FetchBody respDrive) FetchRejected eq_refl eq_refl eq_refl eq_refl)
    as (_ & _ & _ & _ & _ & _ & _ & H). exact H.
Defined.

Lemma click_ignored_when_not_selecting_witness :
  selectingPoint s_nav = None /\ react s_nav (ClickMap pointA) (FetchBody respCycle) = s_nav.
Proof.
  split; [reflexivity|].
  apply click_ignored_when_not_selecting. right. reflexivity.
Defined.

Lemma select_new_mode_recalculates_witness :
  ready s_idle /\ TravelMode_eqb cycling (travelMode s_idle) = false /\
  routeInfo (react s_idle (SelectTravelMode cycling) FetchRejected) = None.
Proof.
  split; [exact ready_s_idle|]. split; [reflexivity|].
  destruct (select_new_mode_recalculates s_idle cycling FetchRejected ready_s_idle eq_refl)
    as (_ & _ & _ & H). exact H.
Defined.

Lemma route_panel_during_and_after_witness :
  ready s_idle /\
  routePanel (calculateRoute s_idle (FetchBody respDrive)) = PanelRoute (buildRouteInfo routeDrive).
Proof.
  split; [exact ready_s_idle|].
  exact (proj2 (route_panel_during_and_after s_idle (FetchBody respDrive) ready_s_idle)).
Defined.

Lemma clear_during_calculation_reinstalls_witness :
  calculateRoute_begin s_idle = Some (set_routeInfo None (set_isCalculatingRoute true s_idle)) /\
  routeOfResponse respDrive = Some (buildRouteInfo routeDrive) /\
  routeInfo (calculateRoute_end
               (react (set_routeInfo None (set_isCalculatingRoute true s_idle))
                  ClearRouteButton FetchRejected)
               (FetchBody respDrive)) = Some (buildRouteInfo routeDrive).
Proof.
  split; [reflexivity|]. split; [reflexivity|].
  destruct (clear_during_calculation_reinstalls s_idle
              (set_routeInfo None (set_isCalculatingRoute true s_idle))
              FetchRejected respDrive (buildRouteInfo routeDrive) eq_refl eq_refl)
    as (_ & _ & _ & H & _). exact H.
Defined.

Lemma stale_response_wins_witness :
  ready s_idle /\ TravelMode_eqb cycling (travelMode s_idle) = false /\
  routeOfResponse respDrive = Some (buildRouteInfo routeDrive) /\
  exists sA sB,
    calculateRoute_begin s_idle = Some sA /\
    calculateRoute_begin (fst (handle sA (SelectTravelMode cycling))) = Some sB /\
    routeInfo (calculateRoute_end (calculateRoute_end sB (FetchBody respCycle))
                 (FetchBody respDrive)) = Some (buildRouteInfo routeDrive).
Proof.
  split; [exact ready_s_idle|]. split; [reflexivity|]. split; [reflexivity|].
  destruct (stale_response_wins s_idle cycling (FetchBody respCycle) respDrive
              (buildRouteInfo routeDrive) ready_s_idle eq_refl eq_refl)
    as (sA & sB & HA & _ & HB & H & _).
  exists sA, sB. split; [exact HA|]. split; [exact HB|]. exact H.
Defined.

Lemma goToStep_speaks_one_witness :
  enabled voice_init = true /\ speaking voice_init = false /\
  synth_queue (snd (goToStep_voice 1 (buildStep (turnStep "B")) s_nav voice_init)) =
    [instruction (buildStep (turnStep "B")) ++ ". " ++
     formatDistance (step_distance (buildStep (turnStep "B")))].
Proof.
  split; [reflexivity|]. split; [reflexivity|].
  pose proof (goToStep_speaks_one 1 (buildStep (turnStep "B")) s_nav voice_init) as H.
  destruct H as (_ & H & _). exact (proj1 (H eq_refl eq_refl)).
Defined.

Lemma toggle_twice_blocks_until_error_witness :
  enabled v_playing = true /\ speaking v_playing = true /\ synth_queue v_playing <> [] /\
  speak "Turn right" (toggle (toggle v_playing)) = toggle (toggle v_playing).
Proof.
  split; [reflexivity|]. split; [reflexivity|]. split; [discriminate|].
  destruct (toggle_twice_blocks_until_error v_playing "Turn right" eq_refl eq_refl
              ltac:(discriminate)) as (_ & _ & H & _). exact H.
Defined.

Lemma voice_reachable_speaking_accounted_witness :
  voice_reachable v_playing /\ synth_queue v_playing <> [].
Proof.
  assert (Hr : voice_reachable v_playing).
  { apply (vr_step (speak "Turn left" voice_init)).
    - apply (vr_step voice_init). + exact vr_init. + apply vs_speak.
    - apply vs_start. reflexivity. }
  split; [exact Hr|].
  exact (proj1 (voice_reachable_speaking_accounted v_playing Hr) eq_refl).
Defined.

Lemma formatDistance_rounds_to_1000_m_witness :
  (1999 # 2 <= 9997 # 10 < 1000) /\ formatDistance (9997 # 10) = "1000 m".
Proof.
  assert (H : 1999 # 2 <= 9997 # 10 < 1000).
  { split; [unfold Qle|unfold Qlt]; simpl; lia. }
  split; [exact H|]. exact (proj1 (formatDistance_rounds_to_1000_m (9997 # 10) H)).
Defined.

Lemma formatDuration_zero_minutes_witness :
  (is_double 3630 /\ 3600 <= 3630 < 3660) /\ formatDuration 3630 = "1h 0m" /\
  (is_double 45 /\ 0 <= 45 < 60) /\ formatDuration 45 = "0 min".
Proof.
  assert (D1 : is_double 3630) by exact (is_double_Z 3630 eq_refl).
  assert (D2 : is_double 45) by exact (is_double_Z 45 eq_refl).
  assert (H1 : 3600 <= 3630 < 3660) by (split; unfold Qle, Qlt; simpl; lia).
  assert (H2 : 0 <= 45 < 60) by (split; unfold Qle, Qlt; simpl; lia).
  split; [split; [exact D1|exact H1]|].
  split; [exact (proj1 (formatDuration_zero_minutes 3630 D1) H1)|].
  split; [split; [exact D2|exact H2]|].
  exact (proj2 (formatDuration_zero_minutes 45 D2) H2).
Defined.

Lemma active_step_unique_witness :
  (1 < length (map buildStep [turnStep "A"; turnStep "B"; turnStep "C"]))%nat /\
  nth_error (activeFlags (map buildStep [turnStep "A"; turnStep "B"; turnStep "C"]) 2) 1 =
    Some false.
Proof.
  assert (H : (1 < length (map buildStep [turnStep "A"; turnStep "B"; turnStep "C"]))%nat)
    by (simpl; lia).
  split; [exact H|].
  exact (proj2 (active_step_unique (map buildStep [turnStep "A"; turnStep "B"; turnStep "C"]) 2) 1%nat H).
Defined.

Lemma repick_start_keeps_selecting_end_witness :
  isRoutingMode s_nav = true /\ mapReady s_nav = true /\ endPoint s_nav = Some pointB /\
  selectingPoint (react (react s_nav ClearStartButton FetchRejected) (ClickMap pointB)
                    (FetchBody respCycle)) = Some slot_end.
Proof.
  do 3 (split; [reflexivity|]).
  destruct (repick_start_keeps_selecting_end s_nav pointB pointB pointA FetchRejected
              (FetchBody respCycle) FetchRejected FetchRejected eq_refl eq_refl eq_refl)
    as (_ & _ & _ & _ & H & _). exact H.
Defined.
